(** * Page-scan pipeline of [parse_cv_lv.py]

    A shallow embedding of the page scanner (visible-text extraction,
    image location, image download, OCR, language detection, batch
    runner) together with the properties stated about it.

    Python [str] values are sequences of Unicode code points; they are
    modelled as lists of code points.  The libraries the script calls
    (requests, BeautifulSoup, PIL, pytesseract, langdetect, tempfile) are
    collaborators: they are gathered in one interface, and every
    theorem holds for all implementations of it. *)

From Stdlib Require Import ZArith NArith Ascii String DecimalString.
From stdpp Require Import base tactics option list gmap.

Set Warnings "-register-all".
Local Open Scope Z_scope.

(** ** Python strings *)

Module PyStr.

Definition codepoint := N.
Definition pystr := list codepoint.

(** ASCII literals of the source, as code-point lists. *)
Fixpoint py (s : string) : pystr :=
  match s with
  | EmptyString => []
  | String a s' => N_of_ascii a :: py s'
  end.
Arguments py _%_string : simpl never.

Definition SPACE : codepoint := 32%N.

(** [str.isspace] on one character, which is also what [\s] matches in
    a [str] pattern of [re]: the code points CPython's
    [_PyUnicode_IsWhitespace] accepts. *)
Definition isspace (c : codepoint) : bool :=
  ((9 <=? c) && (c <=? 13) || (28 <=? c) && (c <=? 32)
   || (c =? 133) || (c =? 160) || (c =? 5760)
   || (8192 <=? c) && (c <=? 8202)
   || (c =? 8232) || (c =? 8233) || (c =? 8239) || (c =? 8287)
   || (c =? 12288))%N.

Fixpoint lstrip (s : pystr) : pystr :=
  match s with
  | [] => []
  | c :: s' => if isspace c then lstrip s' else s
  end.

Definition rstrip (s : pystr) : pystr := reverse (lstrip (reverse s)).

(** [s.strip()] *)
Definition strip (s : pystr) : pystr := rstrip (lstrip s).

(** [sep.join(parts)] *)
Fixpoint join (sep : pystr) (parts : list pystr) : pystr :=
  match parts with
  | [] => []
  | [p] => p
  | p :: rest => p ++ sep ++ join sep rest
  end.

(** [re.sub(r"\s+", " ", s)]: scanning left to right, every maximal run
    of whitespace is one match and is replaced by one space.  [in_run]
    tells that the previous character belonged to the current match. *)
Fixpoint sub_spaces (in_run : bool) (s : pystr) : pystr :=
  match s with
  | [] => []
  | c :: s' =>
      if isspace c
      then (if in_run then sub_spaces true s' else SPACE :: sub_spaces true s')
      else c :: sub_spaces false s'
  end.

Definition re_sub_spaces (s : pystr) : pystr := sub_spaces false s.

(** [s.startswith(prefix)] *)
Definition startswith (pre s : pystr) : bool :=
  bool_decide (take (length pre) s = pre).

(** [s.split(sep)] for a one-character separator: never empty. *)
Fixpoint split (sep : codepoint) (s : pystr) : list pystr :=
  match s with
  | [] => [[]]
  | c :: s' =>
      if (c =? sep)%N then [] :: split sep s'
      else match split sep s' with
           | [] => [[c]]
           | p :: ps => (c :: p) :: ps
           end
  end.

(** [s.rfind(c)] for a one-character needle: the last index, or -1. *)
Fixpoint rfind_from (c : codepoint) (s : pystr) (i : Z) (last : Z) : Z :=
  match s with
  | [] => last
  | d :: s' => rfind_from c s' (i + 1) (if (d =? c)%N then i else last)
  end.

Definition rfind (c : codepoint) (s : pystr) : Z := rfind_from c s 0 (-1).

(** [s[:n]] and [s[n:]] for [0 <= n]. *)
Definition slice_to (n : Z) (s : pystr) : pystr := take (Z.to_nat n) s.
Definition slice_from (n : Z) (s : pystr) : pystr := drop (Z.to_nat n) s.

(** [x or y] on strings: the empty string is falsy. *)
Definition str_or (x y : pystr) : pystr :=
  match x with [] => y | _ => x end.

(** [str(n)] for an integer. *)
Definition str_of_int (n : Z) : pystr :=
  py (NilZero.string_of_int (Z.to_int n)).

End PyStr.
Export PyStr.

(** ** [os.path.splitext] (posixpath) *)

Module PosixPath.

Definition SLASH : codepoint := 47%N.
Definition DOT : codepoint := 46%N.
Definition QUESTION : codepoint := 63%N.

Definition Path := pystr.

(** [dir / name] of pathlib, for a [name] that is one relative
    component (the only use the script makes of it). *)
Definition path_join (dir : Path) (name : pystr) : Path :=
  dir ++ [SLASH] ++ name.

(** The [while filenameIndex < dotIndex] loop of [genericpath._splitext]:
    [remaining] is [dotIndex - filenameIndex], so the loop condition fails
    exactly when it reaches zero. *)
Fixpoint splitext_scan (p : pystr) (dotIndex : Z) (remaining : nat)
    (filenameIndex : Z) : option (pystr * pystr) :=
  match remaining with
  | O => None
  | S remaining' =>
      if bool_decide (take 1 (slice_from filenameIndex p) ≠ [DOT])
      then Some (slice_to dotIndex p, slice_from dotIndex p)
      else splitext_scan p dotIndex remaining' (filenameIndex + 1)
  end.

Definition splitext (p : pystr) : pystr * pystr :=
  let sepIndex := rfind SLASH p in
  let dotIndex := rfind DOT p in
  if dotIndex >? sepIndex then
    match splitext_scan p dotIndex (Z.to_nat (dotIndex - (sepIndex + 1)))
            (sepIndex + 1) with
    | Some r => r
    | None => (p, [])
    end
  else (p, []).

End PosixPath.
Export PosixPath.

(** ** The parse tree of BeautifulSoup *)

Module Soup.

(** The classes of string nodes of bs4: plain [NavigableString] and its
    subclasses, the preformatted strings ([Comment] among them) and the
    strings of special containers. *)
Inductive string_class :=
  | NavigableString | Comment | CData | ProcessingInstruction
  | Declaration | Doctype
  | Stylesheet | Script | TemplateString
  | RubyTextString | RubyParenthesisString.

#[global] Instance string_class_eq_dec : EqDecision string_class.
Proof. solve_decision. Defined.

Inductive PageElement :=
  | Tag (name : pystr) (attrs : gmap pystr pystr) (contents : list PageElement)
  | Str (cls : string_class) (text : pystr).

(** The root object: its name is ["[document]"]. *)
Definition BeautifulSoupTree := list PageElement.

Definition DOCUMENT : pystr := py "[document]".

(** A string node as [find_all(string=True)] returns it: the node and
    the name of its parent ([element.parent.name]). *)
Record string_node := StringNode {
  parent_name : pystr;
  node_class : string_class;
  node_text : pystr
}.

Fixpoint strings_under (parent : pystr) (e : PageElement) : list string_node :=
  match e with
  | Str c s => [StringNode parent c s]
  | Tag n _ cs => flat_map (strings_under n) cs
  end.

(** [soup.find_all(string=True)]: every string node, in document order. *)
Definition find_all_strings (soup : BeautifulSoupTree) : list string_node :=
  flat_map (strings_under DOCUMENT) soup.

Fixpoint tags_named (name : pystr) (e : PageElement) : list PageElement :=
  match e with
  | Str _ _ => []
  | Tag n a cs =>
      (if decide (n = name) then [Tag n a cs] else [])
      ++ flat_map (tags_named name) cs
  end.

(** [soup.find_all(name)]: every tag of that name, in document order. *)
Definition find_all (name : pystr) (soup : BeautifulSoupTree) : list PageElement :=
  flat_map (tags_named name) soup.

(** [tag.get(key)] *)
Definition tag_get (e : PageElement) (key : pystr) : option pystr :=
  match e with
  | Tag _ a _ => a !! key
  | Str _ _ => None
  end.

End Soup.
Export Soup.

(** ** Visible text *)

Definition EXCLUDED_PARENTS : list pystr :=
  [py "style"; py "script"; py "head"; py "title"; py "meta"; DOCUMENT].

Definition is_visible_element (element : string_node) : bool :=
  let parent := parent_name element in
  if bool_decide (parent ∈ EXCLUDED_PARENTS) then false
  else if bool_decide (node_class element = Comment) then false
  else
    let text := node_text element in
    if bool_decide (strip text = []) then false
    else true.

(** [extract_visible_text] after the parse. *)
Definition visible_text_of (soup : BeautifulSoupTree) : pystr :=
  let texts := find_all_strings soup in
  let visible_texts := List.filter is_visible_element texts in
  let joined := join (py " ") (map (λ t, strip (node_text t)) visible_texts) in
  re_sub_spaces joined.

(** ** Languages *)

Definition TARGET_LANGS : gmap pystr pystr :=
  {[ py "lav" := py "Latvian"; py "rus" := py "Russian"; py "eng" := py "English" ]}.

(** [l.lang in TARGET_LANGS] *)
Definition in_target_langs (code : pystr) : bool :=
  bool_decide (is_Some (TARGET_LANGS !! code)).

(** ** Results, exceptions and the collaborators *)

(** An exception object caught by [except Exception]; [exn_str] is
    [str(e)]. *)
Record exn := Exception { exn_str : pystr }.

Inductive outcome (A : Type) :=
  | Returned (a : A)
  | Raised (e : exn).
Arguments Returned {A} a.
Arguments Raised {A} e.

(** An entry of the ranked list of [langdetect.detect_langs]; [prob] is
    a float in the source and is never inspected by the script. *)
Record Language := { lang : pystr; prob : Z * Z }.

(** The libraries the script calls.  Calls that touch the network, the
    file system, the OCR engine or the (randomised) detector thread an
    external [World], and they may raise, whether the script guards
    them with [try] or not: [urljoin] rejects some references (it
    raises [ValueError] on ["//["], an unbalanced bracket in the host
    part), and making or removing the temporary directory may fail with
    an [OSError].  The markup parser is the permissive collaborator of
    the specification and is total; [url_hash] is the per-process
    [hash] of a string. *)
Record Collaborators := {
  World : Type;
  Response : Type;
  File : Type;
  Chunk : Type;
  Image : Type;
  (** [session.get(url, timeout=t, stream=s)] *)
  session_get : pystr → Z → bool → World → World * outcome Response;
  (** [resp.raise_for_status()] *)
  raise_for_status : Response → outcome unit;
  (** [resp.text] *)
  resp_text : Response → pystr;
  (** [r.iter_content(n)]: the chunks the generator yields and the
      exception, if any, that ends it. *)
  iter_content : Response → Z → World → World * (list Chunk * option exn);
  (** [fp.open("wb")], [f.write(chunk)], and closing at the end of [with] *)
  open_wb : Path → World → World * outcome File;
  file_write : File → Chunk → World → World * outcome unit;
  file_close : File → World → World;
  (** [Image.open(fp)], [img.convert(mode)],
      [pytesseract.image_to_string(img, lang=l)] *)
  Image_open : Path → World → World * outcome Image;
  Image_convert : Image → pystr → World → World * outcome Image;
  image_to_string : Image → pystr → World → World * outcome pystr;
  (** [detect_langs(text)] *)
  detect_langs : pystr → World → World * outcome (list Language);
  (** [BeautifulSoup(html, parser)] *)
  BeautifulSoup : pystr → pystr → BeautifulSoupTree;
  (** [requests.compat.urljoin(base, url)] *)
  urljoin : pystr → pystr → outcome pystr;
  (** [hash(s)] *)
  url_hash : pystr → Z;
  (** entering and leaving [tempfile.TemporaryDirectory()] *)
  mkdtemp : World → World * outcome Path;
  cleanup : Path → World → World * outcome unit
}.

(** ** Records of the result *)

Record ImageRecord := {
  src : pystr;
  ocr_text : pystr;
  ocr_langs : list pystr
}.

(** The [page_data] dictionary: four keys always present, ["error"]
    only after a failed fetch. *)
Record PageRecord := {
  url : pystr;
  visible_text : pystr;
  visible_text_langs : list pystr;
  images : list ImageRecord;
  error : option pystr
}.

Definition set_error (e : pystr) (p : PageRecord) : PageRecord :=
  {| url := url p; visible_text := visible_text p;
     visible_text_langs := visible_text_langs p; images := images p;
     error := Some e |}.

Definition set_visible_text (t : pystr) (p : PageRecord) : PageRecord :=
  {| url := url p; visible_text := t;
     visible_text_langs := visible_text_langs p; images := images p;
     error := error p |}.

Definition set_visible_text_langs (l : list pystr) (p : PageRecord) : PageRecord :=
  {| url := url p; visible_text := visible_text p;
     visible_text_langs := l; images := images p;
     error := error p |}.

(** [page_data["images"].append(r)] *)
Definition append_image (r : ImageRecord) (p : PageRecord) : PageRecord :=
  {| url := url p; visible_text := visible_text p;
     visible_text_langs := visible_text_langs p; images := images p ++ [r];
     error := error p |}.

(** Steps of one page scan, recorded in order (ghost state: the source
    keeps no such log).  [EvDownload] carries what [download_image]
    returned. *)
Inductive event :=
  | EvFetch (page_url : pystr)
  | EvExtract (html : pystr)
  | EvDetect (text : pystr)
  | EvDownload (img_url : pystr) (result : option Path)
  | EvOcr (fp : Path).

Definition is_failed_download (ev : event) : bool :=
  match ev with EvDownload _ None => true | _ => false end.

Definition is_download (ev : event) : bool :=
  match ev with EvDownload _ _ => true | _ => false end.

(** ** The pipeline *)

Section Pipeline.
Context (E : Collaborators).

Record state := State { world : World E; trace : list event }.

(** Computations of the script: they thread the state and either return
    or raise. *)
Definition M (A : Type) : Type := state → state * outcome A.

#[export] Instance M_ret : MRet M := λ A a st, (st, Returned a).

#[export] Instance M_bind : MBind M := λ A B k m st,
  match m st with
  | (st', Returned a) => k a st'
  | (st', Raised e) => (st', Raised e)
  end.

(** [try: m  except Exception as e: h e] *)
Definition try_except {A} (m : M A) (h : exn → M A) : M A := λ st,
  match m st with
  | (st', Raised e) => h e st'
  | r => r
  end.

(** [try: m  finally: fin] *)
Definition try_finally {A} (m : M A) (fin : World E → World E) : M A := λ st,
  match m st with
  | (st', r) => (State (fin (world st')) (trace st'), r)
  end.

Definition call {A} (f : World E → World E * outcome A) : M A := λ st,
  match f (world st) with
  | (w, r) => (State w (trace st), r)
  end.

Definition lift {A} (r : outcome A) : M A := λ st, (st, r).

Definition raise {A} (e : exn) : M A := lift (Raised e).

Definition log (ev : event) : M unit := λ st,
  (State (world st) (trace st ++ [ev]), Returned tt).

(** [for x in l: acc = body acc x] *)
Fixpoint for_each {A B} (body : A → B → M A) (acc : A) (l : list B) : M A :=
  match l with
  | [] => mret acc
  | x :: l' => acc' ← body acc x; for_each body acc' l'
  end.

Definition extract_visible_text (html : pystr) : pystr :=
  let soup := BeautifulSoup E html (py "html.parser") in
  visible_text_of soup.

Definition detect_relevant_langs (text : pystr) : M (list pystr) :=
  r ← try_except
         (langs ← call (detect_langs E text); mret (inr langs))
         (λ _, mret (inl []));
  match r with
  | inl early => mret early
  | inr langs => mret (map lang (List.filter (λ l, in_target_langs (lang l)) langs))
  end.

(** The file name [download_image] writes to. *)
Definition image_suffix (url : pystr) : pystr :=
  str_or (slice_to 5 (splitext (hd [] (split QUESTION url))).2) (py ".jpg").

Definition image_path (url : pystr) (tmpdir : Path) : Path :=
  path_join tmpdir (py "img_" ++ str_of_int (Z.abs (url_hash E url)) ++ image_suffix url).

(** [for chunk in r.iter_content(8192): f.write(chunk)] *)
Definition write_chunks (f : File E) (r : Response E) : M unit :=
  cs ← call (λ w, match iter_content E r 8192 w with
                   | (w', cs) => (w', Returned cs)
                   end);
  _ ← for_each (λ _ chunk, call (file_write E f chunk)) tt cs.1;
  match cs.2 with
  | Some e => raise e
  | None => mret tt
  end.

(** The body of the [try] of [download_image]. *)
Definition download_body (url : pystr) (tmpdir : Path) : M (option Path) :=
  r ← call (session_get E url 15 true);
  _ ← lift (raise_for_status E r);
  let fp := image_path url tmpdir in
  f ← call (open_wb E fp);
  _ ← try_finally (write_chunks f r) (file_close E f);
  mret (Some fp).

Definition download_image (url : pystr) (tmpdir : Path) : M (option Path) :=
  try_except (download_body url tmpdir) (λ _, mret None).

(** The body of the [try] of [ocr_image]. *)
Definition ocr_body (fp : Path) : M pystr :=
  img ← call (Image_open E fp);
  gray ← call (Image_convert E img (py "L"));
  call (image_to_string E gray (py "lav+rus+eng")).

Definition ocr_image (fp : Path) : M pystr :=
  try_except (ocr_body fp) (λ _, mret []).

(** [src if src.startswith("http") else urljoin(url, src)] *)
Definition resolve_src (page_url src_value : pystr) : outcome pystr :=
  if startswith (py "http") src_value then Returned src_value
  else urljoin E page_url src_value.

(** [img.get("src") or ""] *)
Definition img_src (img : PageElement) : pystr :=
  match tag_get img (py "src") with
  | Some v => str_or v []
  | None => []
  end.

(** The body of [for img in img_tags]. *)
Definition scan_image (page_url : pystr) (dtmp_path : Path)
    (page_data : PageRecord) (img : PageElement) : M PageRecord :=
  let src_value := img_src img in
  match src_value with
  | [] => mret page_data
  | _ =>
      img_url ← lift (resolve_src page_url src_value);
      fp ← download_image img_url dtmp_path;
      _ ← log (EvDownload img_url fp);
      match fp with
      | None => mret page_data
      | Some fp =>
          _ ← log (EvOcr fp);
          text ← ocr_image fp;
          _ ← log (EvDetect text);
          langs ← detect_relevant_langs text;
          mret (append_image
                  {| src := img_url; ocr_text := text; ocr_langs := langs |}
                  page_data)
      end
  end.

(** Leaving a [with] block whose [__exit__] may raise: it runs after
    the body however the body ended, and an exception of its own
    replaces the outcome of the body. *)
Definition on_exit {A} (m : M A) (exit : World E → World E * outcome unit) : M A :=
  λ st,
  match m st with
  | (st', r) =>
      match exit (world st') with
      | (w, Returned _) => (State w (trace st'), r)
      | (w, Raised e) => (State w (trace st'), Raised e)
      end
  end.

(** [with tempfile.TemporaryDirectory() as dtmp: body] *)
Definition with_TemporaryDirectory {A} (body : Path → M A) : M A :=
  dtmp ← call (mkdtemp E);
  on_exit (body dtmp) (cleanup E dtmp).

(** The guarded fetch at the head of [scrape_page]: the caught
    exception, or the response. *)
Definition fetch_page (url : pystr) : M (exn + Response E) :=
  try_except
    (resp ← call (session_get E url 20 false);
     _ ← lift (raise_for_status E resp);
     mret (inr resp))
    (λ e, mret (inl e)).

Definition scrape_page (url : pystr) : M PageRecord :=
  let page_data :=
    {| url := url; visible_text := []; visible_text_langs := [];
       images := []; error := None |} in
  _ ← log (EvFetch url);
  fetched ← fetch_page url;
  match fetched with
  | inl e => mret (set_error (exn_str e) page_data)
  | inr resp =>
      let html := resp_text E resp in
      _ ← log (EvExtract html);
      let visible_text := extract_visible_text html in
      let page_data := set_visible_text visible_text page_data in
      _ ← log (EvDetect visible_text);
      langs ← detect_relevant_langs visible_text;
      let page_data := set_visible_text_langs langs page_data in
      let soup := BeautifulSoup E html (py "html.parser") in
      let img_tags := find_all (py "img") soup in
      match img_tags with
      | [] => mret page_data
      | _ =>
          with_TemporaryDirectory (λ dtmp_path,
            for_each (scan_image url dtmp_path) page_data img_tags)
      end
  end.

(** The loop of [main]: [results.append(scrape_page(url, session))]. *)
Definition run_batch (urls : list pystr) : M (list PageRecord) :=
  for_each (λ results url, r ← scrape_page url; mret (results ++ [r])) [] urls.

(** [resolve_src] over the sources of a page, in order, up to the first
    one that [urljoin] rejects. *)
Fixpoint resolve_all (page_url : pystr) (srcs : list pystr) : outcome (list pystr) :=
  match srcs with
  | [] => Returned []
  | s :: srcs' =>
      match resolve_src page_url s with
      | Raised e => Raised e
      | Returned img_url =>
          match resolve_all page_url srcs' with
          | Raised e => Raised e
          | Returned img_urls => Returned (img_url :: img_urls)
          end
      end
  end.

(** The non-empty [src] values of some image elements, in order. *)
Definition sources (img_tags : list PageElement) : list pystr :=
  List.filter (λ s, negb (bool_decide (s = []))) (map img_src img_tags).

(** The Image Locator: the URLs [scrape_page] hands to [download_image],
    in the order of the loop, when every source resolves. *)
Definition image_urls (page_url : pystr) (soup : BeautifulSoupTree)
    : outcome (list pystr) :=
  resolve_all page_url (sources (find_all (py "img") soup)).

End Pipeline.

Arguments State {E} world trace.
Arguments world {E} s.
Arguments trace {E} s.

(** ** Vocabulary of the properties *)

(** The codes the Language Detector may expose. *)
Definition SUPPORTED_CODES : list pystr := [py "lav"; py "rus"; py "eng"].

(** No two adjacent characters are both whitespace. *)
Definition no_whitespace_run (s : pystr) : Prop :=
  ∀ i c1 c2, s !! i = Some c1 → s !! S i = Some c2 →
    ¬ (isspace c1 = true ∧ isspace c2 = true).

(** Every string node with the names of all the tags above it,
    innermost first. *)
Fixpoint strings_with_ancestors (ancestors : list pystr) (e : PageElement)
    : list (list pystr * string_node) :=
  match e with
  | Str c s => [(ancestors, StringNode (hd DOCUMENT ancestors) c s)]
  | Tag n _ cs => flat_map (strings_with_ancestors (n :: ancestors)) cs
  end.

(** All the text of the document lies somewhere inside an element with
    one of the given names. *)
Definition content_inside (names : list pystr) (soup : BeautifulSoupTree) : bool :=
  forallb (λ x, existsb (λ a, bool_decide (a ∈ names)) x.1)
    (flat_map (strings_with_ancestors []) soup).

(** Every string node is dropped by one of the three rules of
    [is_visible_element]. *)
Definition all_strings_discarded (soup : BeautifulSoupTree) : Prop :=
  Forall (λ t, parent_name t ∈ EXCLUDED_PARENTS
               ∨ node_class t = Comment
               ∨ strip (node_text t) = [])
    (find_all_strings soup).

(** The image elements that carry a non-empty [src]. *)
Definition has_src (img : PageElement) : bool :=
  negb (bool_decide (img_src img = [])).

Definition downloads (tr : list event) : list (pystr * option Path) :=
  omap (λ ev, match ev with EvDownload u r => Some (u, r) | _ => None end) tr.

Definition failed_downloads (tr : list event) : nat :=
  length (List.filter is_failed_download tr).

(** The URLs whose download returned a file. *)
Definition successes (ds : list (pystr * option Path)) : list pystr :=
  omap (λ d, match d.2 with Some _ => Some d.1 | None => None end) ds.

Section Vocabulary.
Context (E : Collaborators).

Definition page_fetch_fails (url : pystr) (w w' : World E) (e : exn) : Prop :=
  session_get E url 20 false w = (w', Raised e)
  ∨ ∃ resp, session_get E url 20 false w = (w', Returned resp)
            ∧ raise_for_status E resp = Raised e.

Definition page_fetch_succeeds (url : pystr) (w w' : World E) (resp : Response E) : Prop :=
  session_get E url 20 false w = (w', Returned resp)
  ∧ raise_for_status E resp = Returned tt.

(** The detector never reports one of the three supported codes. *)
Definition detector_reports_only_foreign_codes : Prop :=
  ∀ text w w' langs, detect_langs E text w = (w', Returned langs) →
    Forall (λ l, lang l ∉ SUPPORTED_CODES) langs.

(** A computation that leaves the log alone, and one that always
    returns. *)
Definition trace_preserving {A} (m : M E A) : Prop :=
  ∀ st, trace (m st).1 = trace st.

Definition returns {A} (m : M E A) : Prop :=
  ∀ st, ∃ st' a, m st = (st', Returned a).

(** What the image loop did between two states, over the tags [tags]:
    the page-level fields are untouched, every source resolved, one
    download was attempted per tag with a source, in order, and one
    record was appended per download that returned a file. *)
Definition scan_progress (page_url : pystr) (tags : list PageElement)
    (p : PageRecord) (st : state E) (p' : PageRecord) (st' : state E) : Prop :=
  ∃ tr new,
    trace st' = trace st ++ tr
    ∧ url p' = url p ∧ visible_text p' = visible_text p
    ∧ visible_text_langs p' = visible_text_langs p ∧ error p' = error p
    ∧ images p' = images p ++ new
    ∧ resolve_all E page_url (sources tags) = Returned (map fst (downloads tr))
    ∧ map src new = successes (downloads tr)
    ∧ (detector_reports_only_foreign_codes → Forall (λ i, ocr_langs i = []) new).

(** Nothing hinders the image scan of a page: every source resolves,
    and the temporary directory can be made and removed. *)
Definition image_scan_unhindered (page_url : pystr) (soup : BeautifulSoupTree) : Prop :=
  (∃ img_urls, image_urls E page_url soup = Returned img_urls)
  ∧ (∀ w, ∃ w' dtmp, mkdtemp E w = (w', Returned dtmp))
  ∧ (∀ dtmp w, ∃ w', cleanup E dtmp w = (w', Returned tt)).

(** The calls of [main]'s loop, one after the other, each returning. *)
Inductive batch_run : list pystr → state E → state E → list PageRecord → Prop :=
  | batch_nil st : batch_run [] st st []
  | batch_cons u us st st1 st2 r rs :
      scrape_page E u st = (st1, Returned r) →
      batch_run us st1 st2 rs →
      batch_run (u :: us) st st2 (r :: rs).

End Vocabulary.

(** ** A small concrete world, for examples *)

Module Demo.

Definition PARSER : pystr := py "html.parser".

Definition EMPTY_URL : pystr := py "http://example.com/empty.html".
Definition MISSING_URL : pystr := py "http://example.com/missing".
Definition DOWN_URL : pystr := py "http://down.example/".
Definition GALLERY_URL : pystr := py "http://example.com/gallery".
Definition BARE_URL : pystr := py "http://example.com/bare".
Definition HEAD_URL : pystr := py "http://example.com/head".
Definition LOGO_URL : pystr := py "http://example.com/logo".
Definition BROKEN_URL : pystr := py "http://example.com/broken".

Definition EMPTY_HTML : pystr := py "<p>Hello   World</p>".
Definition GALLERY_HTML : pystr := py "<img><img src=a.png><img src=b.png><img src=c.txt>".
Definition BARE_HTML : pystr := py "<img>".
Definition HEAD_HTML : pystr := py "<head><p>hi</p></head>".
Definition LOGO_HTML : pystr := py "<img src=http-logo.png>".
Definition BROKEN_HTML : pystr := py "<img src=a.png><img src='//['><img src=c.txt>".

(** Two leaves, with runs of spaces, a line feed and a tab inside. *)
Definition WORDS_LEAF1 : pystr := py " Hello   big ".
Definition WORDS_LEAF2 : pystr := py "World" ++ [10; 9]%N ++ py "of  text ".
Definition WORDS_HTML : pystr :=
  py "<p>" ++ WORDS_LEAF1 ++ py "</p><p>" ++ WORDS_LEAF2 ++ py "</p>".

Definition SCRIPT_HTML : pystr :=
  py "<html><head> <title>T</title><script>var x = 1;</script></head><!-- note -->  </html>".

Definition img (v : pystr) : PageElement := Tag (py "img") {[ py "src" := v ]} [].

Definition HEAD_TREE : BeautifulSoupTree :=
  [Tag (py "head") ∅ [Tag (py "p") ∅ [Str NavigableString (py "hi")]]].

Definition SCRIPT_TREE : BeautifulSoupTree :=
  [Tag (py "html") ∅
     [Tag (py "head") ∅
        [Str NavigableString (py " ");
         Tag (py "title") ∅ [Str NavigableString (py "T")];
         Tag (py "script") ∅ [Str Script (py "var x = 1;")]];
      Str Comment (py " note ");
      Str NavigableString (py " ")]].

(** Status and body of the URLs that answer; any other URL is
    unreachable. *)
Definition web : list (pystr * (Z * pystr)) :=
  [ (EMPTY_URL, (200, EMPTY_HTML));
    (MISSING_URL, (404, []));
    (GALLERY_URL, (200, GALLERY_HTML));
    (BARE_URL, (200, BARE_HTML));
    (HEAD_URL, (200, HEAD_HTML));
    (LOGO_URL, (200, LOGO_HTML));
    (BROKEN_URL, (200, BROKEN_HTML));
    (py "http://example.com", (200, py "GIF"));
    (py "http://example.com/a.png", (200, py "PNG"));
    (py "http://example.com/b.png", (404, []));
    (py "http://example.com/c.txt", (200, py "text")) ].

Definition trees : list (pystr * BeautifulSoupTree) :=
  [ (EMPTY_HTML, [Tag (py "p") ∅ [Str NavigableString (py "Hello   World")]]);
    (GALLERY_HTML, [Tag (py "img") ∅ []; img (py "a.png"); img (py "b.png"); img (py "c.txt")]);
    (BARE_HTML, [Tag (py "img") ∅ []]);
    (HEAD_HTML, HEAD_TREE);
    (SCRIPT_HTML, SCRIPT_TREE);
    (LOGO_HTML, [img (py "http-logo.png")]);
    (BROKEN_HTML, [img (py "a.png"); img (py "//["); img (py "c.txt")]);
    (WORDS_HTML, [Tag (py "p") ∅ [Str NavigableString WORDS_LEAF1];
                  Tag (py "p") ∅ [Str NavigableString WORDS_LEAF2]]) ].

Fixpoint assoc {A} (k : pystr) (tbl : list (pystr * A)) : option A :=
  match tbl with
  | [] => None
  | (k', v) :: tbl' => if decide (k = k') then Some v else assoc k tbl'
  end.

Definition endswith (suffix s : pystr) : bool :=
  bool_decide (drop (length s - length suffix)%nat s = suffix).

(** A reference that opens a host part with an unbalanced bracket is
    rejected, as [urllib.parse.urlsplit] does; a reference with a host
    part takes the scheme of the base; any other is appended to the
    directory of the base. *)
Definition demo_urljoin (base u : pystr) : outcome pystr :=
  if startswith (py "//") u then
    if xorb (bool_decide (91%N ∈ u)) (bool_decide (93%N ∈ u))
    then Raised (Exception (py "Invalid IPv6 URL"))
    else Returned (hd [] (split SLASH base) ++ u)
  else Returned (slice_to (rfind SLASH base + 1) base ++ u).

Definition env : Collaborators := {|
  World := nat;
  Response := Z * pystr;
  File := Path;
  Chunk := pystr;
  Image := Path;
  session_get u _ _ w :=
    (S w, match assoc u web with
          | Some r => Returned r
          | None => Raised (Exception (py "Connection refused"))
          end);
  raise_for_status r :=
    if (400 <=? r.1) && (r.1 <? 600)
    then Raised (Exception (py "404 Client Error"))
    else Returned tt;
  resp_text r := r.2;
  iter_content r _ w := (w, ([r.2], None));
  open_wb fp w := (w, Returned fp);
  file_write _ _ w := (w, Returned tt);
  file_close _ w := w;
  Image_open fp w :=
    (w, if endswith (py ".txt") fp
        then Raised (Exception (py "cannot identify image file"))
        else Returned fp);
  Image_convert im _ w := (w, Returned im);
  image_to_string _ _ w := (w, Returned (py "Sveiki"));
  detect_langs text w :=
    (w, match text with
        | [] => Raised (Exception (py "No features in text."))
        | _ => Returned [ {| lang := py "lv"; prob := (7, 10) |};
                          {| lang := py "en"; prob := (3, 10) |} ]
        end);
  BeautifulSoup html _ := default [] (assoc html trees);
  urljoin := demo_urljoin;
  url_hash s := - Z.of_nat (length s) - 1200;
  mkdtemp w := (w, Returned (py "/tmp/tmpa1"));
  cleanup _ w := (w, Returned tt)
|}.

(** A detector that answers in the supported three-letter codes. *)
Definition env3 : Collaborators := {|
  World := World env; Response := Response env; File := File env;
  Chunk := Chunk env; Image := Image env;
  session_get := session_get env;
  raise_for_status := raise_for_status env;
  resp_text := resp_text env;
  iter_content := iter_content env;
  open_wb := open_wb env;
  file_write := file_write env;
  file_close := file_close env;
  Image_open := Image_open env;
  Image_convert := Image_convert env;
  image_to_string := image_to_string env;
  detect_langs text w :=
    (w, Returned [ {| lang := py "lav"; prob := (6, 10) |};
                   {| lang := py "fin"; prob := (3, 10) |};
                   {| lang := py "eng"; prob := (1, 10) |} ]);
  BeautifulSoup := BeautifulSoup env;
  urljoin := urljoin env;
  url_hash := url_hash env;
  mkdtemp := mkdtemp env;
  cleanup := cleanup env
|}.

Definition start : state env := @State env 0%nat [].
Definition start3 : state env3 := @State env3 0%nat [].

End Demo.

(** * The other scripts

    [parse_cv_lv_m_i.py] repeats the scanner above and adds two
    renderings of its result and a vacancy extractor; [parse_ss_lv.py]
    and [parse_ss_lv_gpt.py] turn a résumé page into markdown. *)

(** ** More of Python's strings *)

Module PyText.

(** Decoding of the UTF-8 bytes of a literal of this file into code
    points, for the literals of the source that are not ASCII. *)
Fixpoint utf8_decode (bs : list N) : pystr :=
  match bs with
  | [] => []
  | b0 :: r0 =>
      if (b0 <? 128)%N then b0 :: utf8_decode r0
      else if (b0 <? 224)%N then
        match r0 with
        | b1 :: r1 => ((b0 - 192) * 64 + (b1 - 128))%N :: utf8_decode r1
        | _ => []
        end
      else if (b0 <? 240)%N then
        match r0 with
        | b1 :: b2 :: r2 =>
            ((b0 - 224) * 4096 + (b1 - 128) * 64 + (b2 - 128))%N :: utf8_decode r2
        | _ => []
        end
      else
        match r0 with
        | b1 :: b2 :: b3 :: r3 =>
            ((b0 - 240) * 262144 + (b1 - 128) * 4096 + (b2 - 128) * 64 + (b3 - 128))%N
            :: utf8_decode r3
        | _ => []
        end
  end.

Definition u8 (s : string) : pystr := utf8_decode (py s).
Arguments u8 _%_string : simpl never.

(** ["\n"] *)
Definition NL : pystr := [10%N].

Definition COLON : codepoint := 58%N.

(** The argument of [strip(" :\n\r\t")]. *)
Definition KEY_VALUE_TRIM : pystr := [32; 58; 10; 13; 9]%N.

(** [s.strip(chars)] *)
Fixpoint lstrip_chars (chars s : pystr) : pystr :=
  match s with
  | [] => []
  | c :: s' => if bool_decide (c ∈ chars) then lstrip_chars chars s' else s
  end.

Definition strip_chars (chars s : pystr) : pystr :=
  reverse (lstrip_chars chars (reverse (lstrip_chars chars s))).

(** [s.replace(c, "")] for a one-character [c] *)
Definition remove_char (c : codepoint) (s : pystr) : pystr :=
  List.filter (λ d, negb (d =? c)%N) s.

(** [re.findall(r"\S+", s)]: the maximal runs of characters that are
    not whitespace.  [cur] is the run being read. *)
Fixpoint nonwhitespace_runs (cur s : pystr) : list pystr :=
  match s with
  | [] => match cur with [] => [] | _ => [cur] end
  | c :: s' =>
      if isspace c
      then match cur with
           | [] => nonwhitespace_runs [] s'
           | _ => cur :: nonwhitespace_runs [] s'
           end
      else nonwhitespace_runs (cur ++ [c]) s'
  end.

Definition nonwhitespace_findall (s : pystr) : list pystr := nonwhitespace_runs [] s.

End PyText.
Export PyText.

(** ** More of BeautifulSoup *)

Module SoupSearch.

(** [tag.interesting_string_types]: the classes of strings [get_text]
    keeps, by the name of the tag it is called on. *)
Definition interesting_string_types (name : pystr) : list string_class :=
  if decide (name = py "rt") then [RubyTextString]
  else if decide (name = py "rp") then [RubyParenthesisString]
  else if decide (name = py "style") then [Stylesheet]
  else if decide (name = py "script") then [Script]
  else if decide (name = py "template") then [TemplateString]
  else [NavigableString; CData].

(** [_all_strings(strip, types)] over the string nodes below a tag. *)
Definition all_strings (types : list string_class) (strip_ : bool)
    (nodes : list string_node) : list pystr :=
  omap (λ t,
          if bool_decide (node_class t ∈ types) then
            if strip_ then
              let s := strip (node_text t) in
              if bool_decide (length s = 0%nat) then None else Some s
            else Some (node_text t)
          else None)
       nodes.

(** [tag.get_text(separator, strip=...)] *)
Definition get_text (separator : pystr) (strip_ : bool) (e : PageElement) : pystr :=
  match e with
  | Tag n _ _ =>
      join separator (all_strings (interesting_string_types n) strip_ (strings_under n e))
  | Str _ s => s
  end.

(** [soup.get_text(separator, strip=...)] on the root object. *)
Definition soup_get_text (separator : pystr) (strip_ : bool)
    (soup : BeautifulSoupTree) : pystr :=
  join separator
    (all_strings (interesting_string_types DOCUMENT) strip_ (find_all_strings soup)).

(** [tag.find_all(name)]: the tags of that name below [tag]. *)
Definition tag_find_all (name : pystr) (e : PageElement) : list PageElement :=
  match e with
  | Tag _ _ cs => flat_map (tags_named name) cs
  | Str _ _ => []
  end.

(** The values of the multi-valued [class] attribute. *)
Definition class_values (e : PageElement) : option (list pystr) :=
  nonwhitespace_findall <$> tag_get e (py "class").

(** The filter [class_=c]: one of the values is [c], or the values
    joined by a space are. *)
Definition matches_class (c : pystr) (e : PageElement) : bool :=
  match class_values e with
  | Some values =>
      bool_decide (c ∈ values) || bool_decide (join [SPACE] values = c)
  | None => false
  end.

(** The filter [id=i]. *)
Definition matches_id (i : pystr) (e : PageElement) : bool :=
  bool_decide (tag_get e (py "id") = Some i).

(** [soup.find_all(name, <filter>)] and [soup.find(name, <filter>)] *)
Definition find_all_where (name : pystr) (keep : PageElement → bool)
    (soup : BeautifulSoupTree) : list PageElement :=
  List.filter keep (find_all name soup).

Definition find_where (name : pystr) (keep : PageElement → bool)
    (soup : BeautifulSoupTree) : option PageElement :=
  head (find_all_where name keep soup).

(** [soup.find(name)] *)
Definition find (name : pystr) (soup : BeautifulSoupTree) : option PageElement :=
  head (find_all name soup).

(** The first match of [search] among the nodes [cs], in document
    order; [search] receives each node and its next sibling. *)
Definition first_in {R} (search : PageElement → option PageElement → option R)
    : list PageElement → option R :=
  fix go (cs : list PageElement) : option R :=
    match cs with
    | [] => None
    | c :: rest =>
        match search c (head rest) with
        | Some r => Some r
        | None => go rest
        end
    end.

(** The first tag named [name] at or below [e], with its
    [next_sibling]. *)
Fixpoint first_named (name : pystr) (e : PageElement) (next : option PageElement)
    : option (PageElement * option PageElement) :=
  match e with
  | Str _ _ => None
  | Tag n _ cs =>
      if decide (n = name) then Some (e, next)
      else first_in (first_named name) cs
  end.

(** [tag.find(name)] together with the [next_sibling] of what it
    found. *)
Definition tag_find_with_sibling (name : pystr) (e : PageElement)
    : option (PageElement * option PageElement) :=
  match e with
  | Tag _ _ cs => first_in (first_named name) cs
  | Str _ _ => None
  end.

(** Truth value of a node: a tag is always true, a string is true when
    it is not empty. *)
Definition node_truthy (e : PageElement) : bool :=
  match e with
  | Tag _ _ _ => true
  | Str _ s => negb (bool_decide (s = []))
  end.

End SoupSearch.
Export SoupSearch.

(** ** Markdown and text renderings ([parse_cv_lv_m_i.py]) *)

(** [TARGET_LANGS.get(l, l)] *)
Definition lang_name (l : pystr) : pystr := default l (TARGET_LANGS !! l).

(** [', '.join(names)] *)
Definition comma_join (names : list pystr) : pystr := join (py ", ") names.

(** The body of [for img in images] of [format_results_as_markdown]. *)
Definition format_image (lines : list pystr) (img : ImageRecord) : list pystr :=
  let lines := lines ++ [u8 "### Изображение: " ++ src img ++ NL] in
  let lines := lines ++ [ocr_text img ++ NL] in
  match ocr_langs img with
  | [] => lines
  | langs =>
      let names := map lang_name langs in
      lines ++ [u8 "**Языки OCR:** " ++ comma_join names ++ NL]
  end.

(** The body of [for page in results]. *)
Definition format_page (lines : list pystr) (page : PageRecord) : list pystr :=
  let lines := lines ++ [py "# URL: " ++ url page ++ NL] in
  match error page with
  | Some e => lines ++ [u8 "**Ошибка:** " ++ e ++ NL]
  | None =>
      let lines := lines ++ [u8 "## Видимый текст" ++ NL] in
      let lines := lines ++ [visible_text page ++ NL] in
      let lines :=
        match visible_text_langs page with
        | [] => lines
        | langs =>
            let names := map lang_name langs in
            lines ++ [u8 "**Обнаруженные языки:** " ++ comma_join names ++ NL]
        end in
      match images page with
      | [] => lines
      | imgs =>
          let lines := lines ++ [u8 "## Изображения с OCR" ++ NL] in
          fold_left format_image imgs lines
      end
  end.

Definition format_results_as_markdown (results : list PageRecord) : pystr :=
  let lines := fold_left format_page results [] in
  join NL lines.

(** The list [texts] that [print_ocr_text_only] builds; every record
    holds the key ["images"], so the test ["images" in page] always
    passes. *)
Definition ocr_texts (results : list PageRecord) : list pystr :=
  fold_left
    (λ texts page,
       fold_left
         (λ texts img,
            let text := strip (ocr_text img) in
            match text with
            | [] => texts
            | _ => texts ++ [text]
            end)
         (images page) texts)
    results [].

(** What [print_ocr_text_only] writes to standard output. *)
Definition print_ocr_text_only (results : list PageRecord) : pystr :=
  join (NL ++ NL) (ocr_texts results) ++ NL.

Section Vacancy.
Context (E : Collaborators).

Definition extract_vacancy_data (html : pystr) : pystr :=
  let soup := BeautifulSoup E html (py "html.parser") in
  let desc := find_where (py "div") (matches_class (py "vacancy-description")) soup in
  match desc with
  | Some desc => get_text NL true desc
  | None => soup_get_text NL true soup
  end.

End Vacancy.

(** ** Résumé pages ([parse_ss_lv.py]) *)

(** The body of [for row in info_table.find_all("tr")]. *)
Definition info_row (info_lines : list pystr) (row : PageElement) : list pystr :=
  let cols := tag_find_all (py "td") row in
  match cols with
  | [c0; c1] =>
      let key := get_text [] true c0 in
      let value := get_text [] true c1 in
      info_lines ++ [py "- **" ++ key ++ py "**: " ++ value]
  | _ => info_lines
  end.

(** The list [info_lines] of [fetch_resume_markdown]. *)
Definition resume_info_lines (soup : BeautifulSoupTree) : list pystr :=
  let info_table := find_where (py "table") (matches_class (py "msg_table")) soup in
  match info_table with
  | Some info_table => fold_left info_row (tag_find_all (py "tr") info_table) []
  | None => []
  end.

(** [fetch_resume_markdown] from the parse on. *)
Definition resume_markdown (soup : BeautifulSoupTree) : pystr :=
  let title := find (py "h2") soup in
  let title_text :=
    match title with
    | Some title => get_text [] true title
    | None => u8 "Нет заголовка"
    end in
  let info_lines := resume_info_lines soup in
  let description := find_where (py "div") (matches_id (py "msg_div_msg")) soup in
  let description_text :=
    match description with
    | Some description => get_text [] true description
    | None => u8 "Нет описания"
    end in
  let markdown := py "# " ++ title_text ++ NL ++ NL in
  let markdown :=
    match info_lines with
    | [] => markdown
    | _ => markdown ++ (u8 "## Информация" ++ NL ++ join NL info_lines ++ NL ++ NL)
    end in
  markdown ++ (u8 "## Описание" ++ NL ++ description_text ++ NL).

Section ResumeFetch.
Context (E : Collaborators).
(** [requests.get(url, headers=headers)] *)
Context (requests_get : pystr → list (pystr * pystr) → World E
                        → World E * outcome (Response E)).

Definition fetch_resume_markdown (url : pystr) : M E pystr :=
  let headers := [(py "User-Agent", py "Mozilla/5.0")] in
  response ← call E (requests_get url headers);
  _ ← lift E (raise_for_status E response);
  let soup := BeautifulSoup E (resp_text E response) (py "html.parser") in
  mret (resume_markdown soup).

End ResumeFetch.

(** ** Résumé pages, second extractor ([parse_ss_lv_gpt.py]) *)

(** What a key of [resume_data] holds: the stripped string, or, when
    the sibling of [<b>] is a tag with a descendant named [strip], the
    result set that calling that descendant returns. *)
Inductive resume_value :=
  | VText (s : pystr)
  | VResultSet (tags : list PageElement).

(** [d[k] = v] on a dictionary kept in insertion order. *)
Fixpoint dict_set {V} (k : pystr) (v : V) (d : list (pystr * V)) : list (pystr * V) :=
  match d with
  | [] => [(k, v)]
  | (k', v') :: d' =>
      if decide (k = k') then (k, v) :: d' else (k', v') :: dict_set k v d'
  end.

(** Calling [None]. *)
Definition NONE_NOT_CALLABLE : exn :=
  Exception (py "'NoneType' object is not callable").

(** The body of [for td in soup.find_all("td")]. *)
Definition scan_cell (resume_data : list (pystr * resume_value)) (td : PageElement)
    : outcome (list (pystr * resume_value)) :=
  match tag_find_with_sibling (py "b") td with
  | Some (b, Some next_sibling) =>
      if node_truthy next_sibling then
        let key := remove_char COLON (get_text [] true b) in
        match next_sibling with
        | Str _ s =>
            let value := strip_chars KEY_VALUE_TRIM s in
            match value with
            | [] => Returned resume_data
            | _ => Returned (dict_set key (VText value) resume_data)
            end
        | Tag _ _ _ =>
            (* [next_sibling.strip] is [next_sibling.find("strip")] *)
            match head (tag_find_all (py "strip") next_sibling) with
            | None => Raised NONE_NOT_CALLABLE
            | Some callee =>
                let value := tag_find_all KEY_VALUE_TRIM callee in
                match value with
                | [] => Returned resume_data
                | _ => Returned (dict_set key (VResultSet value) resume_data)
                end
            end
        end
      else Returned resume_data
  | _ => Returned resume_data
  end.

Fixpoint scan_cells (resume_data : list (pystr * resume_value))
    (tds : list PageElement) : outcome (list (pystr * resume_value)) :=
  match tds with
  | [] => Returned resume_data
  | td :: rest =>
      match scan_cell resume_data td with
      | Returned resume_data => scan_cells resume_data rest
      | Raised e => Raised e
      end
  end.

(** The body of [for block in possible_blocks]. *)
Definition scan_block (resume_data : list (pystr * resume_value))
    (block : PageElement) : list (pystr * resume_value) :=
  let text := get_text [SPACE] true block in
  match text with
  | [] => resume_data
  | _ => dict_set (u8 "Информация") (VText text) resume_data
  end.

Section ResumeData.
Context (E : Collaborators).
(** [str(tag)], used when a result set is formatted. *)
Context (tag_repr : PageElement → pystr).

Definition value_str (v : resume_value) : pystr :=
  match v with
  | VText s => s
  | VResultSet tags => py "[" ++ join (py ", ") (map tag_repr tags) ++ py "]"
  end.

(** [extract_resume_data] once [resume_data] and the other pieces are
    collected: the assembly of [md]. *)
Definition resume_md (title : pystr) (resume_data : list (pystr * resume_value))
    (description : pystr) : pystr :=
  let md := py "# " ++ title ++ NL ++ NL in
  let md :=
    match resume_data with
    | [] => md ++ (u8 "_Данные о резюме не найдены._" ++ NL ++ NL)
    | _ =>
        fold_left (λ md kv, md ++ (py "**" ++ kv.1 ++ py ":** " ++ value_str kv.2 ++ NL ++ NL))
          resume_data md
    end in
  let md := md ++ (u8 "## Описание" ++ NL ++ NL) in
  let md := md ++ (match description with
                   | [] => u8 "_Описание не найдено_"
                   | _ => description
                   end) in
  strip md.

Definition extract_resume_data (html : pystr) : outcome pystr :=
  let soup := BeautifulSoup E html (py "html.parser") in
  let title_tag := find (py "h2") soup in
  let title :=
    match title_tag with
    | Some title_tag => get_text [] true title_tag
    | None => u8 "Без названия"
    end in
  match scan_cells [] (find_all (py "td") soup) with
  | Raised e => Raised e
  | Returned resume_data =>
      let desc_tag := find_where (py "div") (matches_id (py "msg_div_msg")) soup in
      let description :=
        match desc_tag with
        | Some desc_tag => get_text NL true desc_tag
        | None => []
        end in
      let resume_data :=
        match resume_data with
        | [] =>
            let possible_blocks :=
              find_all_where (py "div") (matches_class (py "msg_body")) soup in
            fold_left scan_block possible_blocks resume_data
        | _ => resume_data
        end in
      Returned (resume_md title resume_data description)
  end.

End ResumeData.

(** ** Vocabulary of the further properties *)

(** A string that is empty or begins and ends with a character that is
    not whitespace. *)
Definition no_edge_whitespace (s : pystr) : Prop :=
  (∀ c, head s = Some c → isspace c = false)
  ∧ (∀ c, last s = Some c → isspace c = false).

(** The codes of a record, on the page and on every image, are
    supported codes. *)
Definition record_langs_supported (rec : PageRecord) : Prop :=
  Forall (λ c, c ∈ SUPPORTED_CODES) (visible_text_langs rec)
  ∧ Forall (λ i, Forall (λ c, c ∈ SUPPORTED_CODES) (ocr_langs i)) (images rec).

(** The lines [format_page] adds for one page. *)
Definition page_lines (page : PageRecord) : list pystr := format_page [] page.

(** The first [<b>] below [td] is directly followed by a tag on which
    [.strip] finds nothing to call. *)
Definition bold_followed_by_tag (td : PageElement) : Prop :=
  ∃ b n a cs,
    tag_find_with_sibling (py "b") td = Some (b, Some (Tag n a cs))
    ∧ tag_find_all (py "strip") (Tag n a cs) = [].

(** The first [<b>] below [td], if any, is not directly followed by a
    tag. *)
Definition bold_followed_by_no_tag (td : PageElement) : Prop :=
  ∀ b sibling, tag_find_with_sibling (py "b") td = Some (b, Some sibling) →
    ∃ c s, sibling = Str c s.

(** A decimal digit. *)
Definition is_digit (c : codepoint) : Prop := (48 <= c <= 57)%N.

(** The stripped OCR texts of some images that are not empty. *)
Definition nonblank_ocr_texts (imgs : list ImageRecord) : list pystr :=
  List.filter (λ t, negb (bool_decide (t = [])))
    (map (λ i, strip (ocr_text i)) imgs).

(** The bullet line of a table row with exactly two cells. *)
Definition row_line (row : PageElement) : option pystr :=
  match tag_find_all (py "td") row with
  | [c0; c1] => Some (py "- **" ++ get_text [] true c0 ++ py "**: " ++ get_text [] true c1)
  | _ => None
  end.

(** The rows [fetch_resume_markdown] walks through. *)
Definition info_rows (soup : BeautifulSoupTree) : list PageElement :=
  match find_where (py "table") (matches_class (py "msg_table")) soup with
  | Some info_table => tag_find_all (py "tr") info_table
  | None => []
  end.

(** [d.get(k)] *)
Fixpoint dict_get {V} (k : pystr) (d : list (pystr * V)) : option V :=
  match d with
  | [] => None
  | (k', v) :: d' => if decide (k = k') then Some v else dict_get k d'
  end.

(** What every entry of [resume_data] satisfies after the cell loop:
    the key holds no colon; a text value is not empty and neither
    begins nor ends with one of the characters trimmed off. *)
Definition cell_entry_ok (kv : pystr * resume_value) : Prop :=
  (COLON ∉ kv.1)
  ∧ match kv.2 with
    | VText v =>
        v ≠ []
        ∧ (∀ c, head v = Some c → c ∉ KEY_VALUE_TRIM)
        ∧ (∀ c, last v = Some c → c ∉ KEY_VALUE_TRIM)
    | VResultSet tags => tags ≠ []
    end.

(** The texts of the fallback blocks that are not empty. *)
Definition block_texts (soup : BeautifulSoupTree) : list pystr :=
  List.filter (λ t, negb (bool_decide (t = [])))
    (map (get_text [SPACE] true)
       (find_all_where (py "div") (matches_class (py "msg_body")) soup)).

(** The string nodes below a tag, in document order. *)
Definition tag_strings (e : PageElement) : list string_node :=
  match e with
  | Tag n _ cs => flat_map (strings_under n) cs
  | Str _ _ => []
  end.

(** The string nodes [extract_vacancy_data] reads: those below the
    first [div] whose class holds [vacancy-description], or those of
    the whole document when there is no such [div]. *)
Definition vacancy_strings (soup : BeautifulSoupTree) : list string_node :=
  match find_where (py "div") (matches_class (py "vacancy-description")) soup with
  | Some desc => tag_strings desc
  | None => find_all_strings soup
  end.

(** The text pieces of some string nodes: the plain strings and the
    CDATA sections, stripped, without those that are then empty. *)
Definition text_pieces (nodes : list string_node) : list pystr :=
  List.filter (λ p, negb (bool_decide (p = [])))
    (map (λ t, strip (node_text t))
       (List.filter (λ t, bool_decide (node_class t ∈ [NavigableString; CData])) nodes)).

(** *** The path of a URL, as the specification reads it

    The specification speaks of the extension of the URL's path.  The
    definitions below follow those words, for comparison with
    [image_suffix], which follows the code: the path of a URL is what
    comes after the scheme and the host and before the first ["?"] or
    ["#"] (RFC 3986). *)
Definition HASH : codepoint := 35%N.

Fixpoint take_until (stop : codepoint → bool) (s : pystr) : pystr :=
  match s with
  | [] => []
  | c :: s' => if stop c then [] else c :: take_until stop s'
  end.

Fixpoint drop_until (stop : codepoint → bool) (s : pystr) : pystr :=
  match s with
  | [] => []
  | c :: s' => if stop c then s else drop_until stop s'
  end.

(** What follows the first ["://"], if there is one. *)
Fixpoint after_scheme (s : pystr) : option pystr :=
  match s with
  | [] => None
  | c :: s' => if startswith (py "://") s then Some (drop 3 s) else after_scheme s'
  end.

Definition spec_url_path (u : pystr) : pystr :=
  let from_path :=
    match after_scheme u with
    | Some rest => drop_until (λ c, bool_decide (c ∈ [SLASH; QUESTION; HASH])) rest
    | None => u
    end in
  take_until (λ c, bool_decide (c ∈ [QUESTION; HASH])) from_path.

(** The suffix the specification describes: the first five characters
    of the extension of the URL's path, or the default. *)
Definition spec_image_suffix (u : pystr) : pystr :=
  str_or (slice_to 5 (splitext (spec_url_path u)).2) (py ".jpg").

(** A second small world: résumé and vacancy pages. *)
Module Demo2.

Definition cls (c : pystr) : gmap pystr pystr := {[ py "class" := c ]}.
Definition ident (i : pystr) : gmap pystr pystr := {[ py "id" := i ]}.
Definition text (s : pystr) : PageElement := Str NavigableString s.
Definition tag (n : pystr) (cs : list PageElement) : PageElement := Tag n ∅ cs.

Definition RESUME_HTML : pystr :=
  py "<h2> Programmer </h2><table class='box msg_table'><tr><td>Age:</td><td> 30 </td></tr><tr><td>colspan</td></tr><tr><td>City</td><td>Riga</td></tr></table><div id='msg_div_msg'>Looking for work</div>".
Definition RESUME_TREE : BeautifulSoupTree :=
  [ tag (py "h2") [text (py " Programmer ")];
    Tag (py "table") (cls (py "box msg_table"))
      [ tag (py "tr") [tag (py "td") [text (py "Age:")]; tag (py "td") [text (py " 30 ")]];
        tag (py "tr") [tag (py "td") [text (py "colspan")]];
        tag (py "tr") [tag (py "td") [text (py "City")]; tag (py "td") [text (py "Riga")]] ];
    Tag (py "div") (ident (py "msg_div_msg")) [text (py "Looking for work")] ].

Definition CELLS_HTML : pystr :=
  py "<h2>Programmer</h2><table><tr><td><b>Age:</b> 30" ++ [10%N]
  ++ py "</td><td><b>City:</b>: Riga :</td><td><b>Age:</b> 31</td></tr></table><div id='msg_div_msg'> Looking for work </div>".
Definition CELLS_TREE : BeautifulSoupTree :=
  [ tag (py "h2") [text (py "Programmer")];
    tag (py "table")
      [ tag (py "tr")
          [ tag (py "td") [tag (py "b") [text (py "Age:")]; text [32; 51; 48; 10]%N];
            tag (py "td") [tag (py "b") [text (py "City:")]; text (py ": Riga :")];
            tag (py "td") [tag (py "b") [text (py "Age:")]; text (py " 31")] ] ];
    Tag (py "div") (ident (py "msg_div_msg")) [text (py " Looking for work ")] ].

Definition SPAN_HTML : pystr :=
  py "<table><tr><td><b>Age:</b><span>30</span></td></tr></table>".
Definition SPAN_TREE : BeautifulSoupTree :=
  [ tag (py "table")
      [ tag (py "tr")
          [ tag (py "td") [tag (py "b") [text (py "Age:")]; tag (py "span") [text (py "30")]] ] ] ].

Definition VACANCY_HTML : pystr :=
  py "<p>menu</p><div class='vacancy-description wide'>  Python developer <script>track()</script><!-- hidden --><p> Riga </p></div>".
Definition VACANCY_TREE : BeautifulSoupTree :=
  [ tag (py "p") [text (py "menu")];
    Tag (py "div") (cls (py "vacancy-description wide"))
      [ text (py "  Python developer ");
        tag (py "script") [Str Script (py "track()")];
        Str Comment (py " hidden ");
        tag (py "p") [text (py " Riga ")] ] ].

Definition PLAIN_HTML : pystr := py "<p> Hello </p><p>World</p>".
Definition PLAIN_TREE : BeautifulSoupTree :=
  [ tag (py "p") [text (py " Hello ")]; tag (py "p") [text (py "World")] ].

(** No cell; three [msg_body] blocks, the last of them blank. *)
Definition BLOCKS_HTML : pystr :=
  py "<h2>Driver</h2><div class='msg_body'>first</div><div class='msg_body'> second  block </div><div class='msg_body'> </div><div id='msg_div_msg'>About me</div>".
Definition BLOCKS_TREE : BeautifulSoupTree :=
  [ tag (py "h2") [text (py "Driver")];
    Tag (py "div") (cls (py "msg_body")) [text (py "first")];
    Tag (py "div") (cls (py "msg_body")) [text (py " second  block ")];
    Tag (py "div") (cls (py "msg_body")) [text (py " ")];
    Tag (py "div") (ident (py "msg_div_msg")) [text (py "About me")] ].

Definition trees : list (pystr * BeautifulSoupTree) :=
  [ (RESUME_HTML, RESUME_TREE); (CELLS_HTML, CELLS_TREE); (SPAN_HTML, SPAN_TREE);
    (VACANCY_HTML, VACANCY_TREE); (PLAIN_HTML, PLAIN_TREE);
    (BLOCKS_HTML, BLOCKS_TREE) ].

Definition env : Collaborators := {|
  World := World Demo.env; Response := Response Demo.env; File := File Demo.env;
  Chunk := Chunk Demo.env; Image := Image Demo.env;
  session_get := session_get Demo.env;
  raise_for_status := raise_for_status Demo.env;
  resp_text := resp_text Demo.env;
  iter_content := iter_content Demo.env;
  open_wb := open_wb Demo.env;
  file_write := file_write Demo.env;
  file_close := file_close Demo.env;
  Image_open := Image_open Demo.env;
  Image_convert := Image_convert Demo.env;
  image_to_string := image_to_string Demo.env;
  detect_langs := detect_langs Demo.env;
  BeautifulSoup html _ := default [] (Demo.assoc html trees);
  urljoin := urljoin Demo.env;
  url_hash := url_hash Demo.env;
  mkdtemp := mkdtemp Demo.env;
  cleanup := cleanup Demo.env
|}.

(** [requests.get] answering with the résumé page, or failing. *)
Definition requests_get (u : pystr) (headers : list (pystr * pystr)) (w : nat)
    : nat * outcome (Z * pystr) :=
  (S w, if decide (u = py "https://www.ss.lv/resume") then Returned (200, RESUME_HTML)
        else Raised (Exception (py "Connection refused"))).

Definition tag_repr (e : PageElement) : pystr := py "<tag>".

Definition PAGE_OK : PageRecord :=
  {| url := py "http://example.com/ok"; visible_text := py "Hello";
     visible_text_langs := [py "eng"];
     images := [ {| src := py "http://example.com/a.png"; ocr_text := py " Sveiki ";
                    ocr_langs := [py "lav"; py "eng"] |};
                 {| src := py "http://example.com/b.png"; ocr_text := py "  ";
                    ocr_langs := [] |} ];
     error := None |}.

Definition PAGE_ERR : PageRecord :=
  {| url := py "http://example.com/missing"; visible_text := [];
     visible_text_langs := []; images := []; error := Some (py "404 Client Error") |}.

End Demo2.

(** * Properties *)

(** ** Whitespace *)

Section Whitespace.

Lemma no_whitespace_run_nil : no_whitespace_run [].
Proof. intros i c1 c2 H. by destruct i. Qed.

Lemma no_whitespace_run_cons c s :
  (∀ d, s !! 0%nat = Some d → isspace c = false ∨ isspace d = false) →
  no_whitespace_run s →
  no_whitespace_run (c :: s).
Proof.
  intros Hhead Hrest [|i] c1 c2 H1 H2 [Hc1 Hc2]; simpl in *.
  - injection H1 as <-.
    destruct (Hhead c2 H2) as [Hf|Hf]; congruence.
  - by apply (Hrest i c1 c2).
Qed.

(** After a whitespace character was consumed, the rewritten rest does
    not begin with whitespace. *)
Lemma sub_spaces_in_run_head s d :
  sub_spaces true s !! 0%nat = Some d → isspace d = false.
Proof.
  induction s as [|c s IH]; simpl; [done|].
  destruct (isspace c) eqn:Hc; [done|].
  simpl. intros [= <-]. done.
Qed.

Lemma sub_spaces_no_run s : ∀ b, no_whitespace_run (sub_spaces b s).
Proof.
  induction s as [|c s IH]; intros b; simpl; [apply no_whitespace_run_nil|].
  destruct (isspace c) eqn:Hc.
  - destruct b; [apply IH|].
    apply no_whitespace_run_cons; [|apply IH].
    intros d Hd. right. by eapply sub_spaces_in_run_head.
  - apply no_whitespace_run_cons; [|apply IH].
    intros d _. by left.
Qed.

Lemma sub_spaces_only_space s : ∀ b,
  Forall (λ c, isspace c = true → c = SPACE) (sub_spaces b s).
Proof.
  induction s as [|c s IH]; intros b; simpl; [constructor|].
  destruct (isspace c) eqn:Hc.
  - destruct b; [apply IH|]. constructor; [done|apply IH].
  - constructor; [congruence|apply IH].
Qed.

(** Characters that are not whitespace pass through unchanged, in
    order. *)
Lemma sub_spaces_keeps_text s : ∀ b,
  List.filter (λ c, negb (isspace c)) (sub_spaces b s)
  = List.filter (λ c, negb (isspace c)) s.
Proof.
  induction s as [|c s IH]; intros b; simpl; [done|].
  destruct (isspace c) eqn:Hc; simpl.
  - destruct b; simpl; by rewrite IH.
  - by rewrite Hc, IH.
Qed.

End Whitespace.

(** ** Stripping and joining *)

Section StripFacts.

Lemma lstrip_head s c : head (lstrip s) = Some c → isspace c = false.
Proof.
  induction s as [|d s IH]; simpl; [done|].
  destruct (isspace d) eqn:Hd; [done|]. simpl. by intros [= <-].
Qed.

Lemma lstrip_fixed s :
  (∀ c, head s = Some c → isspace c = false) → lstrip s = s.
Proof.
  destruct s as [|d s]; simpl; [done|].
  intros H. by rewrite (H d).
Qed.

Lemma lstrip_snoc s c : isspace c = false → lstrip (s ++ [c]) = lstrip s ++ [c].
Proof.
  intros Hc. induction s as [|d s IH]; simpl; [by rewrite Hc|].
  by destruct (isspace d).
Qed.

Lemma rstrip_cons s c : isspace c = false → rstrip (c :: s) = c :: rstrip s.
Proof.
  intros Hc. unfold rstrip.
  by rewrite reverse_cons, lstrip_snoc, reverse_app.
Qed.

Lemma rstrip_last s c : last (rstrip s) = Some c → isspace c = false.
Proof. unfold rstrip. rewrite last_reverse. apply lstrip_head. Qed.

Lemma rstrip_fixed s :
  (∀ c, last s = Some c → isspace c = false) → rstrip s = s.
Proof.
  intros H. unfold rstrip. rewrite lstrip_fixed; [apply reverse_involutive|].
  intros c. rewrite head_reverse. apply H.
Qed.

Lemma strip_no_edge_whitespace s : no_edge_whitespace (strip s).
Proof.
  unfold strip. split; [|apply rstrip_last].
  pose proof (lstrip_head s) as Hhead.
  destruct (lstrip s) as [|d t]; [done|].
  rewrite rstrip_cons by by apply Hhead.
  simpl. intros c [= <-]. by apply Hhead.
Qed.

Lemma strip_fixed s : no_edge_whitespace s → strip s = s.
Proof.
  intros [Hhead Hlast]. unfold strip.
  rewrite lstrip_fixed by done. by apply rstrip_fixed.
Qed.

Lemma strip_cons s c : isspace c = false → strip (c :: s) = c :: rstrip s.
Proof.
  intros Hc. unfold strip. simpl. rewrite Hc. by apply rstrip_cons.
Qed.

Lemma join_nonempty sep p ps : p ≠ [] → join sep (p :: ps) ≠ [].
Proof. destruct ps; simpl; [done|]. by destruct p. Qed.

(** Joining trimmed, non-empty pieces gives a trimmed string, whatever
    the separator. *)
Lemma join_no_edge_whitespace sep ps :
  Forall (λ p, p ≠ [] ∧ no_edge_whitespace p) ps →
  no_edge_whitespace (join sep ps).
Proof.
  induction 1 as [|p ps [Hp [Hhead Hlast]] Hps IH]; [done|].
  destruct ps as [|q ps]; [done|].
  change (join sep (p :: q :: ps)) with (p ++ sep ++ join sep (q :: ps)).
  split.
  - destruct p as [|d p]; [done|]. apply Hhead.
  - intros c. rewrite app_assoc, last_app.
    destruct (last (join sep (q :: ps))) as [y|] eqn:Hy.
    + intros [= <-]. by apply IH.
    + apply last_None in Hy. apply join_nonempty in Hy; [done|].
      by inversion Hps as [|?? [? _]].
Qed.

Lemma sub_spaces_snoc s c : ∀ b,
  isspace c = false → sub_spaces b (s ++ [c]) = sub_spaces b s ++ [c].
Proof.
  induction s as [|d s IH]; intros b Hc; simpl; [by rewrite Hc|].
  destruct (isspace d); [destruct b|]; simpl; by rewrite IH.
Qed.

Lemma re_sub_spaces_no_edge_whitespace s :
  no_edge_whitespace s → no_edge_whitespace (re_sub_spaces s).
Proof.
  intros [Hhead Hlast]. unfold re_sub_spaces. split.
  - destruct s as [|d s]; [done|]. simpl.
    rewrite (Hhead d) by done. simpl. intros c [= <-]. by apply Hhead.
  - destruct s as [|d s _] using rev_ind; [done|].
    assert (isspace d = false) as Hd by (apply Hlast, last_snoc).
    rewrite sub_spaces_snoc by done. rewrite last_snoc. by intros c [= <-].
Qed.

(** On a string that does not begin with whitespace the two modes of
    the scan agree. *)
Lemma sub_spaces_mode s :
  (∀ c, head s = Some c → isspace c = false) →
  sub_spaces true s = sub_spaces false s.
Proof.
  destruct s as [|d s]; [done|]. simpl. intros H. by rewrite (H d).
Qed.

(** Collapsing whitespace twice is collapsing it once. *)
Lemma sub_spaces_idempotent s : ∀ b,
  sub_spaces false (sub_spaces b s) = sub_spaces b s.
Proof.
  induction s as [|c s IH]; intros b; simpl; [done|].
  destruct (isspace c) eqn:Hc.
  - destruct b; [apply IH|].
    simpl. change (isspace SPACE) with true. simpl.
    rewrite sub_spaces_mode; [by rewrite IH|].
    intros d Hd. rewrite head_lookup in Hd. by eapply sub_spaces_in_run_head.
  - simpl. by rewrite Hc, IH.
Qed.

End StripFacts.

(** ** Words *)

Section WordFacts.

Lemma nonwhitespace_runs_snoc_space s c : ∀ cur,
  isspace c = true → nonwhitespace_runs cur (s ++ [c]) = nonwhitespace_runs cur s.
Proof.
  intros cur Hc. revert cur.
  induction s as [|d s IH]; intros cur; simpl.
  - rewrite Hc. by destruct cur.
  - destruct (isspace d); [|apply IH]. by rewrite IH.
Qed.

Lemma lstrip_words s : nonwhitespace_findall (lstrip s) = nonwhitespace_findall s.
Proof.
  unfold nonwhitespace_findall.
  induction s as [|c s IH]; simpl; [done|].
  destruct (isspace c) eqn:Hc; [done|]. simpl. by rewrite Hc.
Qed.

Lemma rstrip_snoc s c :
  rstrip (s ++ [c]) = if isspace c then rstrip s else s ++ [c].
Proof.
  unfold rstrip. rewrite reverse_snoc. simpl.
  destruct (isspace c); [done|].
  by rewrite reverse_cons, reverse_involutive.
Qed.

Lemma rstrip_words s : ∀ cur,
  nonwhitespace_runs cur (rstrip s) = nonwhitespace_runs cur s.
Proof.
  induction s as [|c s IH] using rev_ind; intros cur; [done|].
  rewrite rstrip_snoc. destruct (isspace c) eqn:Hc; [|done].
  by rewrite nonwhitespace_runs_snoc_space, IH.
Qed.

(** Stripping a string leaves its words alone. *)
Lemma strip_words s : nonwhitespace_findall (strip s) = nonwhitespace_findall s.
Proof.
  unfold strip, nonwhitespace_findall at 1. rewrite rstrip_words.
  apply lstrip_words.
Qed.

(** And so does collapsing its whitespace. *)
Lemma sub_spaces_words s : ∀ b cur,
  (b = true → cur = []) →
  nonwhitespace_runs cur (sub_spaces b s) = nonwhitespace_runs cur s.
Proof.
  induction s as [|c s IH]; intros b cur Hb; simpl; [done|].
  destruct (isspace c) eqn:Hc.
  - destruct b.
    + rewrite (Hb eq_refl). by apply IH.
    + simpl. change (isspace SPACE) with true. cbv iota.
      by rewrite (IH true []).
  - simpl. rewrite Hc. by apply IH.
Qed.

(** The words of two strings put together with a space between them. *)
Lemma nonwhitespace_runs_space p q : ∀ cur,
  nonwhitespace_runs cur (p ++ SPACE :: q)
  = nonwhitespace_runs cur p ++ nonwhitespace_runs [] q.
Proof.
  induction p as [|c p IH]; intros cur; simpl.
  - change (isspace SPACE) with true. cbv iota. by destruct cur.
  - destruct (isspace c); [|apply IH].
    rewrite IH. by destruct cur.
Qed.

Lemma join_words (parts : list pystr) :
  nonwhitespace_findall (join [SPACE] parts) = flat_map nonwhitespace_findall parts.
Proof.
  unfold nonwhitespace_findall.
  induction parts as [|p parts IH]; [done|].
  destruct parts as [|q parts]; [simpl; by rewrite app_nil_r|].
  change (join [SPACE] (p :: q :: parts)) with (p ++ SPACE :: join [SPACE] (q :: parts)).
  rewrite nonwhitespace_runs_space, IH. done.
Qed.

(** A string that ends in a character that is not whitespace has a
    word. *)
Lemma nonwhitespace_runs_snoc s c : ∀ cur,
  isspace c = false → nonwhitespace_runs cur (s ++ [c]) ≠ [].
Proof.
  intros cur Hc. revert cur.
  induction s as [|d s IH]; intros cur; simpl.
  - rewrite Hc. simpl. by destruct cur.
  - destruct (isspace d); [|apply IH]. destruct cur; [apply IH|done].
Qed.

Lemma nonwhitespace_runs_nonempty s c cur :
  last s = Some c → isspace c = false → nonwhitespace_runs cur s ≠ [].
Proof.
  intros [s' ->]%last_Some Hc. by apply nonwhitespace_runs_snoc.
Qed.

(** On a string that does not end in whitespace, collapsing the
    whitespace and dropping what whitespace begins the string gives
    the words, one space between each two. *)
Lemma sub_spaces_join s : ∀ b cur,
  (∀ c, last s = Some c → isspace c = false) →
  (b = true → cur = []) →
  (b = false → cur = [] → ∀ c, head s = Some c → isspace c = false) →
  cur ++ sub_spaces b s = join [SPACE] (nonwhitespace_runs cur s).
Proof.
  induction s as [|c s IH]; intros b cur Hlast Hb Hhead.
  { simpl. rewrite app_nil_r. by destruct cur. }
  assert (∀ d, last s = Some d → isspace d = false) as Hlast'.
  { intros d Hd. apply Hlast. destruct s; [done|exact Hd]. }
  cbn [sub_spaces nonwhitespace_runs].
  destruct (isspace c) eqn:Hc.
  - assert (∃ d, last s = Some d ∧ isspace d = false) as (d & Hd & Hdspace).
    { destruct s as [|c' s]; [by rewrite (Hlast c) in Hc|].
      destruct (last (c' :: s)) as [d|] eqn:Hd; [|by apply last_None in Hd].
      exists d. split; [done|]. by apply Hlast'. }
    destruct b.
    + rewrite (Hb eq_refl). by apply (IH true []).
    + destruct cur as [|x cur].
      { by rewrite (Hhead eq_refl eq_refl c) in Hc. }
      pose proof (nonwhitespace_runs_nonempty s d [] Hd Hdspace) as Hne.
      pose proof (IH true [] Hlast' (λ _, eq_refl)) as Hrest.
      simpl in Hrest. rewrite Hrest by done.
      destruct (nonwhitespace_runs [] s); [done|reflexivity].
  - rewrite <- (IH false (cur ++ [c])); [by rewrite <- app_assoc|done|done|].
    intros _ Hnil. by destruct cur.
Qed.

(** [" ".join(s.split())] is [re.sub(r"\s+", " ", s)] on a trimmed [s]. *)
Lemma re_sub_spaces_join s :
  no_edge_whitespace s →
  re_sub_spaces s = join [SPACE] (nonwhitespace_findall s).
Proof.
  intros [Hhead Hlast].
  apply (sub_spaces_join s false []); [done|done|]. intros _ _. exact Hhead.
Qed.

Lemma strip_nonempty_words s : strip s ≠ [] → nonwhitespace_findall s ≠ [].
Proof.
  intros Hne. rewrite <- strip_words.
  destruct (strip_no_edge_whitespace s) as [_ Hlast].
  destruct (last (strip s)) as [c|] eqn:Hc; [|by apply last_None in Hc].
  by eapply nonwhitespace_runs_nonempty; [exact Hc|apply Hlast].
Qed.

End WordFacts.

(** ** Induction over the parse tree *)

Lemma PageElement_nested_ind (P : PageElement → Prop) :
  (∀ c s, P (Str c s)) →
  (∀ n a cs, Forall P cs → P (Tag n a cs)) →
  ∀ e, P e.
Proof.
  intros HS HT. fix IH 1. intros [n a cs|c s]; [|apply HS].
  apply HT. induction cs as [|c cs IHcs]; constructor; [apply IH|exact IHcs].
Qed.

(** ** Visible-text filter *)

Lemma is_visible_element_false t :
  parent_name t ∈ EXCLUDED_PARENTS ∨ node_class t = Comment
  ∨ strip (node_text t) = [] →
  is_visible_element t = false.
Proof.
  unfold is_visible_element. intros [H|[H|H]]; repeat case_bool_decide; done.
Qed.

Lemma is_visible_element_true t :
  is_visible_element t = true ↔
  ((parent_name t ∉ EXCLUDED_PARENTS) ∧ node_class t ≠ Comment
   ∧ strip (node_text t) ≠ []).
Proof.
  unfold is_visible_element.
  destruct (bool_decide_reflect (parent_name t ∈ EXCLUDED_PARENTS));
    [split; [done|tauto]|].
  destruct (bool_decide_reflect (node_class t = Comment));
    [split; [done|tauto]|].
  destruct (bool_decide_reflect (strip (node_text t) = []));
    [split; [done|tauto]|].
  tauto.
Qed.

Lemma is_visible_element_discarded t :
  is_visible_element t = false →
  parent_name t ∈ EXCLUDED_PARENTS ∨ node_class t = Comment
  ∨ strip (node_text t) = [].
Proof.
  unfold is_visible_element. repeat case_bool_decide; auto. done.
Qed.

Lemma filter_all_false {A} (f : A → bool) l :
  Forall (λ x, f x = false) l → List.filter f l = [].
Proof.
  induction 1 as [|x l Hx _ IH]; simpl; [done|]. by rewrite Hx.
Qed.

Lemma flat_map_split {A B} (f : A → list B) x l :
  x ∈ l → ∃ before after, flat_map f l = before ++ f x ++ after.
Proof.
  intros (l1 & l2 & ->)%list_elem_of_split.
  exists (flat_map f l1), (flat_map f l2). by rewrite flat_map_app.
Qed.

(** The string nodes of a document do not depend on the record of
    ancestors kept beside them. *)
Lemma strings_with_ancestors_nodes e : ∀ ancestors,
  map snd (strings_with_ancestors ancestors e)
  = strings_under (hd DOCUMENT ancestors) e.
Proof.
  induction e as [c s|n a cs IH] using PageElement_nested_ind;
    intros ancestors; [done|]. simpl.
  induction IH as [|c cs Hc _ IHcs]; simpl; [done|].
  by rewrite map_app, Hc, IHcs.
Qed.

Lemma find_all_strings_ancestors soup :
  map snd (flat_map (strings_with_ancestors []) soup) = find_all_strings soup.
Proof.
  unfold find_all_strings. induction soup as [|e soup IH]; simpl; [done|].
  by rewrite map_app, strings_with_ancestors_nodes, IH.
Qed.

Section VisibleText.
Context (soup : BeautifulSoupTree).

Let leaves := List.filter is_visible_element (find_all_strings soup).
Let joined := join [SPACE] (map (λ t, strip (node_text t)) leaves).

Lemma visible_text_joined_trimmed : no_edge_whitespace joined.
Proof.
  apply join_no_edge_whitespace.
  apply Forall_map, Forall_forall. intros t Ht.
  apply list_elem_of_In, filter_In in Ht as [_ Hvis].
  apply is_visible_element_true in Hvis as (_ & _ & Hne).
  split; [done|apply strip_no_edge_whitespace].
Qed.

Lemma visible_text_joined_words :
  nonwhitespace_findall joined
  = flat_map (λ t, nonwhitespace_findall (node_text t)) leaves.
Proof.
  unfold joined. rewrite join_words.
  induction leaves as [|t l IH]; simpl; [done|].
  by rewrite strip_words, IH.
Qed.

(** The words of the visible text are the words of the surviving
    leaves, leaf after leaf. *)
Lemma visible_text_words :
  nonwhitespace_findall (visible_text_of soup)
  = flat_map (λ t, nonwhitespace_findall (node_text t)) leaves.
Proof.
  rewrite <- visible_text_joined_words.
  unfold visible_text_of, re_sub_spaces, nonwhitespace_findall.
  by apply sub_spaces_words.
Qed.

(** The visible text is those words with one space between each two. *)
Lemma visible_text_closed_form :
  visible_text_of soup
  = join [SPACE] (flat_map (λ t, nonwhitespace_findall (node_text t)) leaves).
Proof.
  rewrite <- visible_text_joined_words.
  apply re_sub_spaces_join, visible_text_joined_trimmed.
Qed.

Lemma visible_text_empty : all_strings_discarded soup ↔ visible_text_of soup = [].
Proof.
  split.
  - intros Hall. unfold visible_text_of.
    rewrite filter_all_false; [done|].
    eapply Forall_impl; [exact Hall|].
    intros t Ht. by apply is_visible_element_false.
  - intros Hempty. apply Forall_forall. intros t Ht.
    destruct (is_visible_element t) eqn:Hvis;
      [|by apply is_visible_element_discarded].
    assert (t ∈ leaves) as Hleaf by (by apply list_elem_of_In, filter_In, conj;
                                       [apply list_elem_of_In|]).
    destruct (flat_map_split (λ t, nonwhitespace_findall (node_text t)) t leaves Hleaf)
      as (before & after & Hsplit).
    apply is_visible_element_true in Hvis as (_ & _ & Hne).
    apply strip_nonempty_words in Hne.
    pose proof visible_text_words as Hwords.
    rewrite Hempty, Hsplit in Hwords.
    destruct before; [|done]. by destruct (nonwhitespace_findall (node_text t)).
Qed.

(** A leaf that none of the three rules drops is kept: its words stand
    together in the visible text. *)
Lemma visible_text_keeps t :
  t ∈ find_all_strings soup →
  (parent_name t ∉ EXCLUDED_PARENTS) → node_class t ≠ Comment →
  strip (node_text t) ≠ [] →
  nonwhitespace_findall (node_text t) ≠ []
  ∧ ∃ before after,
      nonwhitespace_findall (visible_text_of soup)
      = before ++ nonwhitespace_findall (node_text t) ++ after.
Proof.
  intros Hin Hparent Hclass Hne.
  split; [by apply strip_nonempty_words|].
  rewrite visible_text_words.
  apply (flat_map_split (λ t, nonwhitespace_findall (node_text t)) t).
  apply list_elem_of_In, filter_In. split; [by apply list_elem_of_In|].
  by apply is_visible_element_true.
Qed.

End VisibleText.

(** C5. For every markup document (and every parser), the output of
    [extract_visible_text] has no two adjacent whitespace characters;
    the whitespace it does contain is the single space that replaced a
    run, and none of it stands at either end.  Its words (the maximal
    runs of characters that are not whitespace) are the words of the
    surviving leaves, leaf after leaf in document order, and the output
    is exactly those words with one space between each two: one space
    joins a leaf to the next, and one space stands for every run of
    whitespace inside a leaf. *)
Theorem extract_visible_text_no_whitespace_run (E : Collaborators) (html : pystr) :
  let leaves := List.filter is_visible_element
                  (find_all_strings (BeautifulSoup E html (py "html.parser"))) in
  let words := flat_map (λ t, nonwhitespace_findall (node_text t)) leaves in
  let out := extract_visible_text E html in
  no_whitespace_run out
  ∧ Forall (λ c, isspace c = true → c = SPACE) out
  ∧ no_edge_whitespace out
  ∧ nonwhitespace_findall out = words
  ∧ out = join [SPACE] words.
Proof.
  intros leaves words out. subst leaves words out. unfold extract_visible_text.
  split; [apply sub_spaces_no_run|].
  split; [apply sub_spaces_only_space|].
  split; [apply re_sub_spaces_no_edge_whitespace, visible_text_joined_trimmed|].
  split; [apply visible_text_words|apply visible_text_closed_form].
Qed.

Lemma extract_visible_text_no_whitespace_run_witness :
  extract_visible_text Demo.env Demo.WORDS_HTML = py "Hello big World of text"
  ∧ nonwhitespace_findall (extract_visible_text Demo.env Demo.WORDS_HTML)
    = [py "Hello"; py "big"; py "World"; py "of"; py "text"]
  ∧ no_whitespace_run (extract_visible_text Demo.env Demo.WORDS_HTML).
Proof.
  destruct (extract_visible_text_no_whitespace_run Demo.env Demo.WORDS_HTML)
    as (Hrun & _ & _ & Hwords & Hout).
  split; [rewrite Hout; by vm_compute|].
  split; [rewrite Hwords; by vm_compute|exact Hrun].
Defined.

(** C8, as the code has it. [extract_visible_text] returns the empty
    string exactly when every string node of the parsed document has a
    direct parent in the exclusion set, or is a comment, or is blank
    once stripped.  A string node that is none of these is kept,
    whatever stands above its parent (an enclosing [<head>] included):
    it has words, and they stand together in the output. *)
Theorem extract_visible_text_all_discarded (E : Collaborators) (html : pystr) :
  let soup := BeautifulSoup E html (py "html.parser") in
  (all_strings_discarded soup ↔ extract_visible_text E html = [])
  ∧ (∀ ancestors t,
       (ancestors, t) ∈ flat_map (strings_with_ancestors []) soup →
       (parent_name t ∉ EXCLUDED_PARENTS) → node_class t ≠ Comment →
       strip (node_text t) ≠ [] →
       nonwhitespace_findall (node_text t) ≠ []
       ∧ ∃ before after,
           nonwhitespace_findall (extract_visible_text E html)
           = before ++ nonwhitespace_findall (node_text t) ++ after).
Proof.
  intros soup. split; [apply visible_text_empty|].
  intros ancestors t Hin. apply visible_text_keeps.
  rewrite <- find_all_strings_ancestors.
  apply list_elem_of_fmap. by exists (ancestors, t).
Qed.

(** C8, as stated, fails: text nested in another element inside
    [<head>] has that element, not [head], as its parent and is kept. *)
Lemma head_nested_text_is_visible :
  content_inside [py "script"; py "style"; py "head"]
    (BeautifulSoup Demo.env Demo.HEAD_HTML (py "html.parser")) = true
  ∧ extract_visible_text Demo.env Demo.HEAD_HTML = py "hi"
  ∧ extract_visible_text Demo.env Demo.HEAD_HTML ≠ [].
Proof. by vm_compute. Qed.

Lemma extract_visible_text_all_discarded_witness :
  extract_visible_text Demo.env Demo.SCRIPT_HTML = []
  ∧ ∃ before after,
      nonwhitespace_findall (extract_visible_text Demo.env Demo.HEAD_HTML)
      = before ++ [py "hi"] ++ after.
Proof.
  split.
  - apply (proj1 (extract_visible_text_all_discarded Demo.env Demo.SCRIPT_HTML)).
    unfold all_strings_discarded. apply (bool_decide_unpack _).
    vm_compute. exact I.
  - apply (proj2 (extract_visible_text_all_discarded Demo.env Demo.HEAD_HTML)
             [py "p"; py "head"] (StringNode (py "p") NavigableString (py "hi"))).
    + vm_compute. apply list_elem_of_here.
    + apply (bool_decide_unpack _). vm_compute. exact I.
    + discriminate.
    + vm_compute. discriminate.
Defined.

(** ** The state monad of the script *)

Ltac run_M :=
  unfold mbind, M_bind, mret, M_ret, call, lift, raise, log,
    try_except, try_finally; simpl.

Section MonadFacts.
Context (E : Collaborators).

Lemma trace_preserving_ret {A} (a : A) : trace_preserving E (mret a).
Proof. by intros st. Qed.

Lemma trace_preserving_bind {A B} (m : M E A) (k : A → M E B) :
  trace_preserving E m → (∀ a, trace_preserving E (k a)) →
  trace_preserving E (m ≫= k).
Proof.
  intros Hm Hk st. run_M. specialize (Hm st).
  destruct (m st) as [st1 [a|e]]; simpl in *; [|done].
  by rewrite Hk.
Qed.

Lemma trace_preserving_call {A} (f : World E → World E * outcome A) :
  trace_preserving E (call E f).
Proof. intros st. run_M. by destruct (f (world st)). Qed.

Lemma trace_preserving_lift {A} (r : outcome A) : trace_preserving E (lift E r).
Proof. by intros st. Qed.

Lemma trace_preserving_try_except {A} (m : M E A) (h : exn → M E A) :
  trace_preserving E m → (∀ e, trace_preserving E (h e)) →
  trace_preserving E (try_except E m h).
Proof.
  intros Hm Hh st. run_M. specialize (Hm st).
  destruct (m st) as [st1 [a|e]]; simpl in *; [done|].
  by rewrite Hh.
Qed.

Lemma trace_preserving_try_finally {A} (m : M E A) fin :
  trace_preserving E m → trace_preserving E (try_finally E m fin).
Proof.
  intros Hm st. run_M. specialize (Hm st). by destruct (m st).
Qed.

Lemma trace_preserving_for_each {A B} (body : A → B → M E A) l :
  (∀ a b, trace_preserving E (body a b)) →
  ∀ acc, trace_preserving E (for_each E body acc l).
Proof.
  intros Hbody. induction l as [|x l IH]; intros acc; simpl.
  - apply trace_preserving_ret.
  - apply trace_preserving_bind; [apply Hbody|apply IH].
Qed.

Lemma returns_try_except {A} (m : M E A) (h : exn → M E A) :
  (∀ e, returns E (h e)) → returns E (try_except E m h).
Proof.
  intros Hh st. run_M.
  destruct (m st) as [st1 [a|e]]; [by eauto|apply Hh].
Qed.

End MonadFacts.

(** ** The language filter *)

Lemma in_target_langs_spec code :
  in_target_langs code = true ↔ code ∈ SUPPORTED_CODES.
Proof.
  unfold in_target_langs, TARGET_LANGS, SUPPORTED_CODES.
  rewrite bool_decide_eq_true.
  rewrite !lookup_insert_is_Some', lookup_singleton_is_Some.
  rewrite !elem_of_cons, elem_of_nil. intuition congruence.
Qed.

Lemma two_letter_code_not_supported code :
  length code = 2%nat → code ∉ SUPPORTED_CODES.
Proof.
  unfold SUPPORTED_CODES. rewrite !elem_of_cons, elem_of_nil.
  intros Hlen [->|[->|[->|[]]]]; discriminate Hlen.
Qed.

Lemma relevant_codes_supported (langs : list Language) :
  Forall (λ c, c ∈ SUPPORTED_CODES)
    (map lang (List.filter (λ l, in_target_langs (lang l)) langs)).
Proof.
  induction langs as [|l langs IH]; simpl; [constructor|].
  destruct (in_target_langs (lang l)) eqn:Hl; simpl; [|done].
  constructor; [by apply in_target_langs_spec|done].
Qed.

Lemma relevant_codes_sublist (langs : list Language) :
  map lang (List.filter (λ l, in_target_langs (lang l)) langs)
    `sublist_of` map lang langs.
Proof.
  induction langs as [|l langs IH]; simpl; [constructor|].
  destruct (in_target_langs (lang l)); simpl; by constructor.
Qed.

Lemma relevant_codes_filter (langs : list Language) :
  map lang (List.filter (λ l, in_target_langs (lang l)) langs)
  = List.filter in_target_langs (map lang langs).
Proof.
  induction langs as [|l langs IH]; simpl; [done|].
  destruct (in_target_langs (lang l)); simpl; by rewrite IH.
Qed.

Lemma relevant_codes_foreign (langs : list Language) :
  Forall (λ l, lang l ∉ SUPPORTED_CODES) langs →
  map lang (List.filter (λ l, in_target_langs (lang l)) langs) = [].
Proof.
  induction 1 as [|l langs Hl _ IH]; simpl; [done|].
  destruct (in_target_langs (lang l)) eqn:Hin; [|done].
  by apply in_target_langs_spec in Hin.
Qed.

(** ** The components *)

Section ComponentFacts.
Context (E : Collaborators).

Lemma detect_relevant_langs_eq text (st : state E) :
  detect_relevant_langs E text st =
  match detect_langs E text (world st) with
  | (w, Returned langs) =>
      (State w (trace st),
       Returned (map lang (List.filter (λ l, in_target_langs (lang l)) langs)))
  | (w, Raised _) => (State w (trace st), Returned [])
  end.
Proof.
  unfold detect_relevant_langs. run_M.
  by destruct (detect_langs E text (world st)) as [w [langs|e]].
Qed.

Lemma detect_relevant_langs_returns text : returns E (detect_relevant_langs E text).
Proof.
  intros st. rewrite detect_relevant_langs_eq.
  destruct (detect_langs E text (world st)) as [w [langs|e]]; eauto.
Qed.

Lemma detect_relevant_langs_trace text :
  trace_preserving E (detect_relevant_langs E text).
Proof.
  intros st. rewrite detect_relevant_langs_eq.
  by destruct (detect_langs E text (world st)) as [w [langs|e]].
Qed.

Lemma detect_relevant_langs_foreign text (st st' : state E) r :
  detector_reports_only_foreign_codes E →
  detect_relevant_langs E text st = (st', Returned r) → r = [].
Proof.
  intros Hforeign. rewrite detect_relevant_langs_eq.
  destruct (detect_langs E text (world st)) as [w [langs|e]] eqn:Hd;
    intros [= _ <-]; [|done].
  apply relevant_codes_foreign. by eapply Hforeign.
Qed.

Lemma write_chunks_trace f r : trace_preserving E (write_chunks E f r).
Proof.
  unfold write_chunks.
  apply trace_preserving_bind.
  { intros st. run_M. by destruct (iter_content E r 8192 (world st)). }
  intros cs. apply trace_preserving_bind.
  { apply trace_preserving_for_each. intros. apply trace_preserving_call. }
  intros _. destruct (cs.2); [apply trace_preserving_lift|apply trace_preserving_ret].
Qed.

Lemma download_body_trace url tmpdir : trace_preserving E (download_body E url tmpdir).
Proof.
  unfold download_body.
  apply trace_preserving_bind; [apply trace_preserving_call|intros r].
  apply trace_preserving_bind; [apply trace_preserving_lift|intros _].
  apply trace_preserving_bind; [apply trace_preserving_call|intros f].
  apply trace_preserving_bind; [|intros _; apply trace_preserving_ret].
  apply trace_preserving_try_finally, write_chunks_trace.
Qed.

Lemma download_body_result url tmpdir (st st' : state E) r :
  download_body E url tmpdir st = (st', Returned r) →
  r = Some (image_path E url tmpdir).
Proof.
  unfold download_body. run_M.
  destruct (session_get E url 15 true (world st)) as [w1 [resp|e]]; simpl; [|done].
  destruct (raise_for_status E resp) as [[]|e]; simpl; [|done].
  destruct (open_wb E (image_path E url tmpdir) w1) as [w2 [f|e]]; simpl; [|done].
  destruct (write_chunks E f resp (State w2 (trace st))) as [st3 [[]|e]]; simpl; [|done].
  by intros [= _ <-].
Qed.

Lemma download_image_eq url tmpdir (st : state E) :
  download_image E url tmpdir st =
  match download_body E url tmpdir st with
  | (st', Returned r) => (st', Returned r)
  | (st', Raised _) => (st', Returned None)
  end.
Proof.
  unfold download_image. run_M.
  by destruct (download_body E url tmpdir st) as [st' [r|e]].
Qed.

Lemma download_image_trace url tmpdir : trace_preserving E (download_image E url tmpdir).
Proof.
  apply trace_preserving_try_except; [apply download_body_trace|].
  intros _. apply trace_preserving_ret.
Qed.

Lemma download_image_returns url tmpdir : returns E (download_image E url tmpdir).
Proof. apply returns_try_except. intros _ st. by eexists _, _. Qed.

Lemma download_image_result url tmpdir (st st' : state E) fp :
  download_image E url tmpdir st = (st', Returned (Some fp)) →
  fp = image_path E url tmpdir.
Proof.
  rewrite download_image_eq.
  destruct (download_body E url tmpdir st) as [st1 [r|e]] eqn:Hb; [|done].
  intros [= -> ->]. apply download_body_result in Hb. by injection Hb.
Qed.

Lemma ocr_image_eq fp (st : state E) :
  ocr_image E fp st =
  match ocr_body E fp st with
  | (st', Returned t) => (st', Returned t)
  | (st', Raised _) => (st', Returned [])
  end.
Proof.
  unfold ocr_image. run_M. by destruct (ocr_body E fp st) as [st' [r|e]].
Qed.

Lemma ocr_body_trace fp : trace_preserving E (ocr_body E fp).
Proof.
  unfold ocr_body.
  apply trace_preserving_bind; [apply trace_preserving_call|intros img].
  apply trace_preserving_bind; [apply trace_preserving_call|intros gray].
  apply trace_preserving_call.
Qed.

Lemma ocr_image_trace fp : trace_preserving E (ocr_image E fp).
Proof.
  apply trace_preserving_try_except; [apply ocr_body_trace|].
  intros _. apply trace_preserving_ret.
Qed.

Lemma ocr_image_returns fp : returns E (ocr_image E fp).
Proof. apply returns_try_except. intros _ st. by eexists _, _. Qed.

End ComponentFacts.

(** ** The image loop *)

Lemma downloads_app tr1 tr2 : downloads (tr1 ++ tr2) = downloads tr1 ++ downloads tr2.
Proof. apply omap_app. Qed.

Lemma successes_app ds1 ds2 : successes (ds1 ++ ds2) = successes ds1 ++ successes ds2.
Proof. apply omap_app. Qed.

Lemma downloads_length tr : length (downloads tr) = length (List.filter is_download tr).
Proof.
  induction tr as [|ev tr IH]; [done|].
  destruct ev; simpl; auto.
Qed.

(** Every attempted download either returned a file or failed. *)
Lemma successes_failed_length tr :
  (length (successes (downloads tr)) + failed_downloads tr = length (downloads tr))%nat.
Proof.
  unfold failed_downloads.
  induction tr as [|ev tr IH]; [done|].
  destruct ev as [| | |u [fp|]|]; simpl; auto.
  rewrite <- IH. lia.
Qed.

Lemma sources_length tags :
  length (sources tags) = length (List.filter has_src tags).
Proof.
  unfold sources.
  induction tags as [|t tags IH]; simpl; [done|].
  unfold has_src at 1. destruct (negb _); simpl; by rewrite IH.
Qed.

Lemma sources_app tags1 tags2 : sources (tags1 ++ tags2) = sources tags1 ++ sources tags2.
Proof. unfold sources. by rewrite map_app, List.filter_app. Qed.

Lemma sources_one img :
  sources [img] = match img_src img with [] => [] | s => [s] end.
Proof. unfold sources. simpl. by destruct (img_src img). Qed.

Section LoopFacts.
Context (E : Collaborators).

Lemma resolve_all_app page_url srcs1 srcs2 :
  resolve_all E page_url (srcs1 ++ srcs2) =
  match resolve_all E page_url srcs1 with
  | Raised e => Raised e
  | Returned img_urls1 =>
      match resolve_all E page_url srcs2 with
      | Raised e => Raised e
      | Returned img_urls2 => Returned (img_urls1 ++ img_urls2)
      end
  end.
Proof.
  induction srcs1 as [|s srcs1 IH]; simpl.
  - by destruct (resolve_all E page_url srcs2).
  - destruct (resolve_src E page_url s); [|done]. rewrite IH.
    destruct (resolve_all E page_url srcs1); [|done].
    by destruct (resolve_all E page_url srcs2).
Qed.

Lemma resolve_all_length page_url srcs img_urls :
  resolve_all E page_url srcs = Returned img_urls → length img_urls = length srcs.
Proof.
  revert img_urls. induction srcs as [|s srcs IH]; intros img_urls; simpl.
  - by intros [= <-].
  - destruct (resolve_src E page_url s); [|done].
    destruct (resolve_all E page_url srcs); [|done].
    intros [= <-]. simpl. f_equal. by apply IH.
Qed.

Lemma scan_progress_refl page_url p (st : state E) :
  scan_progress E page_url [] p st p st.
Proof.
  exists [], []. by rewrite !app_nil_r.
Qed.

Lemma scan_progress_trans page_url tags1 tags2 p p1 p2 (st st1 st2 : state E) :
  scan_progress E page_url tags1 p st p1 st1 →
  scan_progress E page_url tags2 p1 st1 p2 st2 →
  scan_progress E page_url (tags1 ++ tags2) p st p2 st2.
Proof.
  intros (tr1 & new1 & Ht1 & Hu1 & Hv1 & Hl1 & He1 & Hi1 & Hd1 & Hs1 & Hf1)
         (tr2 & new2 & Ht2 & Hu2 & Hv2 & Hl2 & He2 & Hi2 & Hd2 & Hs2 & Hf2).
  exists (tr1 ++ tr2), (new1 ++ new2).
  rewrite Ht2, Ht1, Hi2, Hi1, !app_assoc.
  repeat split; try congruence.
  - by rewrite sources_app, resolve_all_app, Hd1, Hd2, downloads_app, map_app.
  - by rewrite downloads_app, successes_app, map_app, Hs1, Hs2.
  - intros Hforeign. apply Forall_app; auto.
Qed.

(** One turn of the loop, when it comes to its end. *)
Lemma scan_image_progress page_url dtmp p img (st st' : state E) p' :
  scan_image E page_url dtmp p img st = (st', Returned p') →
  scan_progress E page_url [img] p st p' st'.
Proof.
  unfold scan_image.
  destruct (img_src img) as [|c s] eqn:Hsrc.
  { intros [= <- <-]. exists [], []. rewrite sources_one, Hsrc, !app_nil_r. by simpl. }
  destruct (resolve_src E page_url (c :: s)) as [u|e] eqn:Hres; [|done].
  pose proof (download_image_trace E u dtmp st) as Ht1.
  run_M. destruct (download_image E u dtmp st) as [st1 [fp|e]]; cbn; [|done].
  simpl in Ht1. destruct fp as [fp|]; cbn.
  - set (st2 := State (world st1) ((trace st1 ++ [EvDownload u (Some fp)]) ++ [EvOcr fp])).
    pose proof (ocr_image_trace E fp st2) as Ht3.
    destruct (ocr_image E fp st2) as [st3 [text|e]]; cbn; [|done].
    simpl in Ht3.
    set (st4 := State (world st3) (trace st3 ++ [EvDetect text])).
    pose proof (detect_relevant_langs_trace E text st4) as Ht5.
    destruct (detect_relevant_langs E text st4) as [st5 [langs|e]] eqn:Hl; [|done].
    simpl in Ht5. intros [= <- <-].
    exists [EvDownload u (Some fp); EvOcr fp; EvDetect text],
           [{| src := u; ocr_text := text; ocr_langs := langs |}].
    rewrite sources_one, Hsrc. simpl. rewrite Hres, Ht5, Ht3, Ht1. simpl.
    rewrite <- !app_assoc. repeat split; try done.
    intros Hforeign. constructor; [|done]. simpl.
    by eapply detect_relevant_langs_foreign.
  - intros [= <- <-].
    exists [EvDownload u None], []. rewrite sources_one, Hsrc. simpl.
    rewrite Hres, Ht1, app_nil_r. by simpl.
Qed.

(** A turn of the loop comes to its end when its source resolves. *)
Lemma scan_image_returns page_url dtmp p img (st : state E) img_urls :
  resolve_all E page_url (sources [img]) = Returned img_urls →
  ∃ st' p', scan_image E page_url dtmp p img st = (st', Returned p').
Proof.
  rewrite sources_one. unfold scan_image.
  destruct (img_src img) as [|c s]; [by eexists _, _|].
  simpl. destruct (resolve_src E page_url (c :: s)) as [u|e]; [intros _|done].
  destruct (download_image_returns E u dtmp st) as (st1 & fp & Hd).
  run_M. rewrite Hd. cbn. destruct fp as [fp|]; cbn; [|by eexists _, _].
  match goal with
  | |- context [ocr_image E fp ?sa] =>
      destruct (ocr_image_returns E fp sa) as (st3 & text & ->)
  end.
  cbn.
  match goal with
  | |- context [detect_relevant_langs E text ?sb] =>
      destruct (detect_relevant_langs_returns E text sb) as (st5 & langs & ->)
  end.
  by eexists _, _.
Qed.

(** It raises, before any download, when [urljoin] rejects its
    source. *)
Lemma scan_image_raises page_url dtmp p img (st : state E) e :
  resolve_all E page_url (sources [img]) = Raised e →
  scan_image E page_url dtmp p img st = (st, Raised e).
Proof.
  rewrite sources_one. unfold scan_image.
  destruct (img_src img) as [|c s]; [done|].
  simpl. destruct (resolve_src E page_url (c :: s)) as [u|e']; [done|].
  by intros [= ->].
Qed.

Lemma image_loop_progress page_url dtmp tags : ∀ p (st st' : state E) p',
  for_each E (scan_image E page_url dtmp) p tags st = (st', Returned p') →
  scan_progress E page_url tags p st p' st'.
Proof.
  induction tags as [|img tags IH]; intros p st st' p'; simpl.
  - intros [= <- <-]. apply scan_progress_refl.
  - unfold mbind, M_bind.
    destruct (scan_image E page_url dtmp p img st) as [st1 [p1|e]] eqn:Hs; [|done].
    intros Hloop.
    apply (scan_progress_trans page_url [img] tags p p1 p' st st1 st');
      [by apply (scan_image_progress page_url dtmp)|by apply IH].
Qed.

Lemma image_loop_returns page_url dtmp tags : ∀ p (st : state E) img_urls,
  resolve_all E page_url (sources tags) = Returned img_urls →
  ∃ st' p', for_each E (scan_image E page_url dtmp) p tags st = (st', Returned p').
Proof.
  induction tags as [|img tags IH]; intros p st img_urls; simpl; [by eexists _, _|].
  change (img :: tags) with ([img] ++ tags).
  rewrite sources_app, resolve_all_app.
  destruct (resolve_all E page_url (sources [img])) as [us1|e] eqn:H1; [|done].
  destruct (resolve_all E page_url (sources tags)) as [us2|e] eqn:H2; [|done].
  intros _.
  destruct (scan_image_returns page_url dtmp p img st us1 H1) as (st1 & p1 & Hs).
  destruct (IH p1 st1 us2 eq_refl) as (st2 & p2 & Hloop).
  exists st2, p2. unfold mbind, M_bind. by rewrite Hs.
Qed.

Lemma image_loop_raises page_url dtmp tags : ∀ p (st : state E) e,
  resolve_all E page_url (sources tags) = Raised e →
  ∃ st', for_each E (scan_image E page_url dtmp) p tags st = (st', Raised e).
Proof.
  induction tags as [|img tags IH]; intros p st e; simpl; [done|].
  change (img :: tags) with ([img] ++ tags).
  rewrite sources_app, resolve_all_app.
  destruct (resolve_all E page_url (sources [img])) as [us1|e1] eqn:H1.
  - destruct (resolve_all E page_url (sources tags)) as [us2|e2] eqn:H2; [done|].
    intros [= ->].
    destruct (scan_image_returns page_url dtmp p img st us1 H1) as (st1 & p1 & Hs).
    destruct (IH p1 st1 e eq_refl) as (st2 & Hloop).
    exists st2. unfold mbind, M_bind. by rewrite Hs.
  - intros [= ->]. exists st. unfold mbind, M_bind.
    by rewrite (scan_image_raises page_url dtmp p img st e H1).
Qed.

End LoopFacts.

(** ** The page scanner *)

Section ScannerFacts.
Context (E : Collaborators).

Lemma fetch_page_eq u (st : state E) :
  fetch_page E u st =
  match session_get E u 20 false (world st) with
  | (w, Raised e) => (State w (trace st), Returned (inl e))
  | (w, Returned resp) =>
      match raise_for_status E resp with
      | Returned _ => (State w (trace st), Returned (inr resp))
      | Raised e => (State w (trace st), Returned (inl e))
      end
  end.
Proof.
  unfold fetch_page. run_M.
  destruct (session_get E u 20 false (world st)) as [w [resp|e]]; cbn; [|done].
  by destruct (raise_for_status E resp) as [[]|e].
Qed.

Lemma fetch_page_fails u (st : state E) w e :
  page_fetch_fails E u (world st) w e →
  ∀ tr, fetch_page E u (State (world st) tr) = (State w tr, Returned (inl e)).
Proof.
  intros [Hget|(resp & Hget & Hstatus)] tr; rewrite fetch_page_eq; cbn;
    rewrite Hget; [done|]. by rewrite Hstatus.
Qed.

Lemma fetch_page_succeeds u (st : state E) w resp :
  page_fetch_succeeds E u (world st) w resp →
  ∀ tr, fetch_page E u (State (world st) tr) = (State w tr, Returned (inr resp)).
Proof.
  intros [Hget Hstatus] tr. rewrite fetch_page_eq. cbn.
  by rewrite Hget, Hstatus.
Qed.

(** The fetch either fails or succeeds. *)
Lemma page_fetch_cases u (w : World E) :
  (∃ w' e, page_fetch_fails E u w w' e)
  ∨ (∃ w' resp, page_fetch_succeeds E u w w' resp).
Proof.
  unfold page_fetch_fails, page_fetch_succeeds.
  destruct (session_get E u 20 false w) as [w' [resp|e]] eqn:Hget.
  - destruct (raise_for_status E resp) as [[]|e] eqn:Hstatus.
    + right. by exists w', resp.
    + left. exists w', e. right. by exists resp.
  - left. exists w', e. by left.
Qed.

Lemma scrape_page_failure u (st : state E) w e :
  page_fetch_fails E u (world st) w e →
  scrape_page E u st
  = (State w (trace st ++ [EvFetch u]),
     Returned {| url := u; visible_text := []; visible_text_langs := [];
                 images := []; error := Some (exn_str e) |}).
Proof.
  intros Hfail. unfold scrape_page. run_M.
  by rewrite (fetch_page_fails u st w e Hfail).
Qed.

(** [scrape_page] after a successful fetch: what is left to run is the
    detection on the page text and, when the page has image elements,
    the image loop inside its temporary directory. *)
Lemma scrape_page_after_fetch u (st : state E) w resp :
  page_fetch_succeeds E u (world st) w resp →
  let html := resp_text E resp in
  let soup := BeautifulSoup E html (py "html.parser") in
  let text := extract_visible_text E html in
  let p0 := {| url := u; visible_text := text; visible_text_langs := [];
               images := []; error := None |} in
  scrape_page E u st =
  match detect_relevant_langs E text
          (State w (trace st ++ [EvFetch u; EvExtract html; EvDetect text])) with
  | (st2, Raised e) => (st2, Raised e)
  | (st2, Returned langs) =>
      let p := set_visible_text_langs langs p0 in
      match find_all (py "img") soup with
      | [] => (st2, Returned p)
      | img_tags =>
          with_TemporaryDirectory E
            (λ dtmp_path, for_each E (scan_image E u dtmp_path) p img_tags) st2
      end
  end.
Proof.
  intros Hok html soup text p0. unfold scrape_page. run_M.
  rewrite (fetch_page_succeeds u st w resp Hok). cbn.
  fold html. fold text. fold soup. rewrite <- !app_assoc. cbn [app].
  destruct (detect_relevant_langs E text _) as [st2 [langs|e]]; [|done].
  by destruct (find_all (py "img") soup).
Qed.

Lemma with_TemporaryDirectory_eq {A} (body : Path → M E A) (st : state E) :
  with_TemporaryDirectory E body st =
  match mkdtemp E (world st) with
  | (w, Raised e) => (State w (trace st), Raised e)
  | (w, Returned dtmp) =>
      match body dtmp (State w (trace st)) with
      | (st', r) =>
          match cleanup E dtmp (world st') with
          | (w', Returned _) => (State w' (trace st'), r)
          | (w', Raised e) => (State w' (trace st'), Raised e)
          end
      end
  end.
Proof.
  unfold with_TemporaryDirectory, on_exit. run_M.
  by destruct (mkdtemp E (world st)) as [w [dtmp|e]].
Qed.

(** What a record returned after a successful fetch holds, and what
    the scan did to produce it. *)
Lemma scrape_page_success u (st st' : state E) w resp rec :
  page_fetch_succeeds E u (world st) w resp →
  scrape_page E u st = (st', Returned rec) →
  let html := resp_text E resp in
  let soup := BeautifulSoup E html (py "html.parser") in
  let text := extract_visible_text E html in
  ∃ tr,
    trace st' = trace st ++ [EvFetch u; EvExtract html; EvDetect text] ++ tr
    ∧ url rec = u ∧ visible_text rec = text ∧ error rec = None
    ∧ (∃ st1 st2, detect_relevant_langs E text st1
                  = (st2, Returned (visible_text_langs rec)))
    ∧ image_urls E u soup = Returned (map fst (downloads tr))
    ∧ map src (images rec) = successes (downloads tr)
    ∧ (detector_reports_only_foreign_codes E →
       Forall (λ i, ocr_langs i = []) (images rec)).
Proof.
  intros Hok Hrun html soup text.
  rewrite (scrape_page_after_fetch u st w resp Hok) in Hrun. cbv zeta in Hrun.
  fold html text soup in Hrun.
  set (st1 := State w (trace st ++ [EvFetch u; EvExtract html; EvDetect text])) in Hrun.
  pose proof (detect_relevant_langs_trace E text st1) as Ht2.
  destruct (detect_relevant_langs E text st1) as [st2 [langs|e]] eqn:Hl; [|done].
  simpl in Ht2. unfold image_urls. fold soup.
  destruct (find_all (py "img") soup) as [|t ts] eqn:Htags.
  - injection Hrun as <- <-. exists []. cbn.
    rewrite Ht2. repeat split; eauto.
  - rewrite with_TemporaryDirectory_eq in Hrun.
    destruct (mkdtemp E (world st2)) as [w3 [dtmp|e]]; [|done].
    destruct (for_each E _ _ (t :: ts) _) as [st4 [p4|e]] eqn:Hloop;
      [|by destruct (cleanup E dtmp (world st4)) as [w5 [[]|e']]].
    destruct (cleanup E dtmp (world st4)) as [w5 [[]|e']]; [|done].
    injection Hrun as <- <-.
    apply image_loop_progress in Hloop
      as (tr & new & Htr & Hu & Hv & Hls & He & Hi & Hd & Hs & Hf).
    exists tr. cbn in *.
    rewrite Htr, Ht2, <- !app_assoc, Hu, Hv, Hls, He, Hi. cbn.
    repeat split; eauto.
Qed.

(** A record is returned after a successful fetch when the image scan
    is not hindered. *)
Lemma scrape_page_returns_unhindered u (st : state E) w resp :
  page_fetch_succeeds E u (world st) w resp →
  image_scan_unhindered E u (BeautifulSoup E (resp_text E resp) (py "html.parser")) →
  ∃ st' rec, scrape_page E u st = (st', Returned rec).
Proof.
  intros Hok ([img_urls Hurls] & Hmk & Hclean).
  rewrite (scrape_page_after_fetch u st w resp Hok). cbv zeta.
  match goal with
  | |- context [detect_relevant_langs E ?text ?s1] =>
      destruct (detect_relevant_langs_returns E text s1) as (st2 & langs & ->)
  end.
  unfold image_urls in Hurls.
  destruct (find_all (py "img") _) as [|t ts]; [by eexists _, _|].
  rewrite with_TemporaryDirectory_eq.
  destruct (Hmk (world st2)) as (w3 & dtmp & ->).
  match goal with
  | |- context [for_each E ?body ?p (t :: ts) ?s3] =>
      destruct (image_loop_returns E u dtmp (t :: ts) p s3 img_urls Hurls)
        as (st4 & p4 & ->)
  end.
  destruct (Hclean dtmp (world st4)) as (w5 & ->). by eexists _, _.
Qed.

(** No record is returned after a successful fetch when [urljoin]
    rejects a source of the page: the exception leaves [scrape_page]
    (or the one of removing the directory does). *)
Lemma scrape_page_raises u (st : state E) w resp e :
  page_fetch_succeeds E u (world st) w resp →
  image_urls E u (BeautifulSoup E (resp_text E resp) (py "html.parser")) = Raised e →
  ∃ st' e', scrape_page E u st = (st', Raised e').
Proof.
  intros Hok Hurls.
  rewrite (scrape_page_after_fetch u st w resp Hok). cbv zeta.
  match goal with
  | |- context [detect_relevant_langs E ?text ?s1] =>
      destruct (detect_relevant_langs_returns E text s1) as (st2 & langs & ->)
  end.
  unfold image_urls in Hurls.
  destruct (find_all (py "img") _) as [|t ts]; [done|].
  rewrite with_TemporaryDirectory_eq.
  destruct (mkdtemp E (world st2)) as [w3 [dtmp|e3]]; [|by eexists _, _].
  match goal with
  | |- context [for_each E ?body ?p (t :: ts) ?s3] =>
      destruct (image_loop_raises E u dtmp (t :: ts) p s3 e Hurls) as (st4 & ->)
  end.
  destruct (cleanup E dtmp (world st4)) as [w5 [[]|e5]]; by eexists _, _.
Qed.

Lemma scrape_page_url u (st st' : state E) rec :
  scrape_page E u st = (st', Returned rec) → url rec = u.
Proof.
  intros Hrun.
  destruct (page_fetch_cases u (world st)) as [(w & e & Hf)|(w & resp & Hok)].
  - rewrite (scrape_page_failure u st w e Hf) in Hrun. by injection Hrun as _ <-.
  - by destruct (scrape_page_success u st st' w resp rec Hok Hrun) as (tr & _ & Hu & _).
Qed.

End ScannerFacts.

(** ** Page-level failure *)

(** C1. When the page fetch fails (the request raises, or the status
    check raises), [scrape_page] returns the record that carries the
    URL and the error text, with the text, language and image fields at
    their initial empty values; the world is the one the failed request
    left and the log holds the fetch alone, so no extraction, detection,
    download or OCR step ran.  When the fetch succeeds, every record
    [scrape_page] returns has no error. *)
Theorem scrape_page_fetch_outcome (E : Collaborators) (u : pystr) (st : state E) :
  (∀ w e, page_fetch_fails E u (world st) w e →
     scrape_page E u st
     = (State w (trace st ++ [EvFetch u]),
        Returned {| url := u; visible_text := []; visible_text_langs := [];
                    images := []; error := Some (exn_str e) |}))
  ∧ (∀ w resp st' rec,
       page_fetch_succeeds E u (world st) w resp →
       scrape_page E u st = (st', Returned rec) →
       error rec = None).
Proof.
  split.
  - intros w e Hfail. by apply scrape_page_failure.
  - intros w resp st' rec Hok Hrun.
    by destruct (scrape_page_success E u st st' w resp rec Hok Hrun)
      as (tr & _ & _ & _ & Herr & _).
Qed.

Lemma scrape_page_fetch_outcome_witness :
  scrape_page Demo.env Demo.MISSING_URL Demo.start
  = (@State Demo.env 1%nat [EvFetch Demo.MISSING_URL],
     Returned {| url := Demo.MISSING_URL; visible_text := [];
                 visible_text_langs := []; images := [];
                 error := Some (py "404 Client Error") |})
  ∧ ∃ st' rec, scrape_page Demo.env Demo.GALLERY_URL Demo.start = (st', Returned rec)
               ∧ length (images rec) = 2%nat
               ∧ error rec = None.
Proof.
  split.
  - apply (proj1 (scrape_page_fetch_outcome Demo.env Demo.MISSING_URL Demo.start)
             1%nat (Exception (py "404 Client Error"))).
    right. exists (404, []). split; vm_compute; reflexivity.
  - eexists _, _. split; [vm_compute; reflexivity|]. split; [reflexivity|].
    eapply (proj2 (scrape_page_fetch_outcome Demo.env Demo.GALLERY_URL Demo.start)
              1%nat (200, Demo.GALLERY_HTML)).
    + split; vm_compute; reflexivity.
    + vm_compute. reflexivity.
Defined.

(** ** Images of a page *)

(** C2, as the code has it. For every record returned for a
    successfully fetched page, with [N] the number of image elements
    that carry a non-empty source and [M] the number of downloads that
    failed, the record has [N - M] images, one per download that
    returned a file, in order.  In each turn of the loop, once the
    source has resolved, a download that returned a file appends exactly
    one record, whose text is what [ocr_image] returned (empty when the
    OCR raised) and whose languages are what [detect_relevant_langs]
    returned (empty when the detector raised). *)
Theorem images_one_per_successful_download (E : Collaborators) :
  (∀ u (st st' : state E) w resp rec,
     page_fetch_succeeds E u (world st) w resp →
     scrape_page E u st = (st', Returned rec) →
     ∃ tr,
       trace st' = trace st ++ tr
       ∧ (length (images rec) + failed_downloads tr
          = length (List.filter has_src
                      (find_all (py "img")
                         (BeautifulSoup E (resp_text E resp) (py "html.parser")))))%nat
       ∧ map src (images rec) = successes (downloads tr))
  ∧ (∀ page_url dtmp p img (st1 st2 : state E) img_url fp,
       img_src img ≠ [] →
       resolve_src E page_url (img_src img) = Returned img_url →
       download_image E img_url dtmp st1 = (st2, Returned (Some fp)) →
       let sa := State (world st2)
                   (trace st2 ++ [EvDownload img_url (Some fp); EvOcr fp]) in
       ∃ sb text sd langs,
         ocr_image E fp sa = (sb, Returned text)
         ∧ detect_relevant_langs E text (State (world sb) (trace sb ++ [EvDetect text]))
           = (sd, Returned langs)
         ∧ scan_image E page_url dtmp p img st1
           = (sd, Returned (append_image
                              {| src := img_url; ocr_text := text; ocr_langs := langs |}
                              p))
         ∧ (∀ s e, ocr_body E fp sa = (s, Raised e) → text = [])
         ∧ (∀ w e, detect_langs E text (world sb) = (w, Raised e) → langs = [])).
Proof.
  split.
  - intros u st st' w resp rec Hok Hrun.
    destruct (scrape_page_success E u st st' w resp rec Hok Hrun)
      as (tr & Htr & _ & _ & _ & _ & Hd & Hs & _).
    set (html := resp_text E resp) in *.
    exists ([EvFetch u; EvExtract html; EvDetect (extract_visible_text E html)] ++ tr).
    split; [exact Htr|].
    change (failed_downloads (_ ++ tr)) with (failed_downloads tr).
    change (downloads (_ ++ tr)) with (downloads tr).
    split; [|done].
    rewrite <- (length_map src), Hs.
    rewrite successes_failed_length, <- (length_map fst).
    unfold image_urls in Hd. apply resolve_all_length in Hd.
    by rewrite Hd, sources_length.
  - intros page_url dtmp p img st1 st2 img_url fp Hsrc Hres Hd sa.
    destruct (ocr_image_returns E fp sa) as (sb & text & Ho).
    destruct (detect_relevant_langs_returns E text
                (State (world sb) (trace sb ++ [EvDetect text])))
      as (sd & langs & Hl).
    exists sb, text, sd, langs. split; [done|]. split; [done|].
    split; [|split].
    + unfold scan_image.
      destruct (img_src img) as [|c s] eqn:Hs; [done|].
      rewrite Hres. run_M. rewrite Hd. cbn.
      rewrite <- app_assoc. cbn. fold sa. rewrite Ho. cbn. by rewrite Hl.
    + intros s e Hraise. rewrite ocr_image_eq, Hraise in Ho. by injection Ho.
    + intros w e Hraise. rewrite detect_relevant_langs_eq in Hl. cbn in Hl.
      rewrite Hraise in Hl. by injection Hl.
Qed.

Lemma images_one_per_successful_download_witness :
  (∃ st' rec,
     scrape_page Demo.env Demo.GALLERY_URL Demo.start = (st', Returned rec)
     ∧ (length (images rec) + failed_downloads (trace st') = 3)%nat
     ∧ length (images rec) = 2%nat)
  ∧ (∃ sd, scan_image Demo.env Demo.GALLERY_URL (py "/tmp/tmpa1")
             {| url := Demo.GALLERY_URL; visible_text := [];
                visible_text_langs := []; images := []; error := None |}
             (Demo.img (py "c.txt")) Demo.start
           = (sd, Returned
                    {| url := Demo.GALLERY_URL; visible_text := [];
                       visible_text_langs := [];
                       images := [ {| src := py "http://example.com/c.txt";
                                      ocr_text := []; ocr_langs := [] |} ];
                       error := None |})).
Proof.
  split.
  - eexists _, _. split; [vm_compute; reflexivity|].
    split; [|reflexivity].
    edestruct (proj1 (images_one_per_successful_download Demo.env)
                 Demo.GALLERY_URL Demo.start) as (tr & Htr & Hcount & _);
      [split; vm_compute; reflexivity|vm_compute; reflexivity|].
    cbn [trace Demo.start app] in Htr. rewrite <- Htr in Hcount. exact Hcount.
  - destruct (proj2 (images_one_per_successful_download Demo.env)
                Demo.GALLERY_URL (py "/tmp/tmpa1")
                {| url := Demo.GALLERY_URL; visible_text := [];
                   visible_text_langs := []; images := []; error := None |}
                (Demo.img (py "c.txt")) Demo.start
                (@State Demo.env 1%nat []) (py "http://example.com/c.txt")
                (py "/tmp/tmpa1/img_1224.txt"))
      as (sb & text & sd & langs & Ho & Hl & Hscan & Hocr & Hdet).
    + vm_compute. discriminate.
    + vm_compute. reflexivity.
    + vm_compute. reflexivity.
    + exists sd. rewrite Hscan.
      assert (text = []) as ->.
      { eapply (Hocr (@State Demo.env 1%nat _) (Exception _)).
        vm_compute. reflexivity. }
      assert (langs = []) as ->.
      { by eapply (Hdet (world sb) (Exception _)). }
      vm_compute. reflexivity.
Defined.

(** C2, as stated, fails: an image element without a source is never
    downloaded, so it neither fails to download nor yields a record. *)
Lemma image_without_src_is_skipped :
  ∃ st' rec,
    scrape_page Demo.env Demo.BARE_URL Demo.start = (st', Returned rec)
    ∧ error rec = None
    ∧ length (find_all (py "img")
                (BeautifulSoup Demo.env Demo.BARE_HTML (py "html.parser"))) = 1%nat
    ∧ failed_downloads (trace st') = 0%nat
    ∧ length (images rec) = 0%nat
    ∧ length (images rec) ≠ (1 - 0)%nat.
Proof.
  eexists _, _. split; [vm_compute; reflexivity|].
  vm_compute. repeat split; discriminate.
Qed.

(** ** Language detection *)

(** C3. When every code the detector reports lies outside
    ["lav"], ["rus"], ["eng"], [detect_relevant_langs] returns the empty
    list; every two-letter code is such a code; and under a detector
    that only ever reports such codes, every record [scrape_page]
    returns has empty [visible_text_langs] and empty [ocr_langs]. *)
Theorem foreign_codes_give_no_langs (E : Collaborators) :
  (∀ text (st : state E) w langs,
     detect_langs E text (world st) = (w, Returned langs) →
     Forall (λ l, lang l ∉ SUPPORTED_CODES) langs →
     detect_relevant_langs E text st = (State w (trace st), Returned []))
  ∧ (∀ code, length code = 2%nat → code ∉ SUPPORTED_CODES)
  ∧ (detector_reports_only_foreign_codes E →
     ∀ u (st st' : state E) rec,
       scrape_page E u st = (st', Returned rec) →
       visible_text_langs rec = []
       ∧ Forall (λ i, ocr_langs i = []) (images rec)).
Proof.
  split; [|split].
  - intros text st w langs Hd Hforeign.
    rewrite detect_relevant_langs_eq, Hd.
    by rewrite relevant_codes_foreign.
  - apply two_letter_code_not_supported.
  - intros Hforeign u st st' rec Hrun.
    destruct (page_fetch_cases E u (world st)) as [(w & e & Hf)|(w & resp & Hok)].
    + rewrite (scrape_page_failure E u st w e Hf) in Hrun.
      injection Hrun as _ <-. by split.
    + destruct (scrape_page_success E u st st' w resp rec Hok Hrun)
        as (tr & _ & _ & _ & _ & (sa & sb & Hl) & _ & _ & Himgs).
      split; [|by apply Himgs].
      by eapply detect_relevant_langs_foreign.
Qed.

Lemma demo_detector_is_foreign : detector_reports_only_foreign_codes Demo.env.
Proof.
  intros text w w' langs. simpl.
  destruct text; intros [= _ <-].
  repeat constructor; by apply two_letter_code_not_supported.
Qed.

Lemma foreign_codes_give_no_langs_witness :
  detect_relevant_langs Demo.env (py "Sveiki") Demo.start
  = (@State Demo.env 0%nat [], Returned [])
  ∧ (py "lv" ∉ SUPPORTED_CODES)
  ∧ ∃ st' rec,
      scrape_page Demo.env Demo.GALLERY_URL Demo.start = (st', Returned rec)
      ∧ visible_text_langs rec = []
      ∧ Forall (λ i, ocr_langs i = []) (images rec).
Proof.
  destruct (foreign_codes_give_no_langs Demo.env) as (Hdetect & Htwo & Hpage).
  split; [|split].
  - eapply (Hdetect (py "Sveiki") Demo.start); [vm_compute; reflexivity|].
    repeat constructor; by apply two_letter_code_not_supported.
  - by apply Htwo.
  - eexists _, _. split; [vm_compute; reflexivity|].
    eapply (Hpage demo_detector_is_foreign Demo.GALLERY_URL Demo.start).
    vm_compute. reflexivity.
Defined.

(** C4. [detect_relevant_langs] always returns; every code it returns is
    one of ["lav"], ["rus"], ["eng"]; when the detector answered, the
    result is its ranked list of codes with exactly the codes outside
    that set removed, hence a subsequence of it; when the detector
    raised, the result is empty. *)
Theorem detect_relevant_langs_supported (E : Collaborators) (text : pystr)
    (st : state E) :
  ∃ w r,
    detect_relevant_langs E text st = (State w (trace st), Returned r)
    ∧ Forall (λ c, c ∈ SUPPORTED_CODES) r
    ∧ (∀ langs, detect_langs E text (world st) = (w, Returned langs) →
         r = List.filter (λ c, bool_decide (c ∈ SUPPORTED_CODES)) (map lang langs)
         ∧ r `sublist_of` map lang langs)
    ∧ (∀ e, detect_langs E text (world st) = (w, Raised e) → r = []).
Proof.
  rewrite detect_relevant_langs_eq.
  destruct (detect_langs E text (world st)) as [w [langs|e]] eqn:Hd.
  - eexists w, _. split; [done|].
    split; [apply relevant_codes_supported|].
    split; [|done].
    intros ? [= <-]. split; [|apply relevant_codes_sublist].
    rewrite relevant_codes_filter. apply List.filter_ext.
    intros c. apply eq_true_iff_eq.
    by rewrite in_target_langs_spec, bool_decide_eq_true.
  - exists w, []. split; [done|]. split; [constructor|].
    split; [done|done].
Qed.

Lemma detect_relevant_langs_supported_witness :
  ∃ w r,
    detect_relevant_langs Demo.env3 (py "Sveiki, hello") Demo.start3
    = (@State Demo.env3 w [], Returned r)
    ∧ r = [py "lav"; py "eng"]
    ∧ r `sublist_of` [py "lav"; py "fin"; py "eng"].
Proof.
  destruct (detect_relevant_langs_supported Demo.env3 (py "Sveiki, hello") Demo.start3)
    as (w & r & Hrun & _ & Hans & _).
  exists w, r. split; [exact Hrun|].
  apply (Hans [ {| lang := py "lav"; prob := (6, 10) |};
                {| lang := py "fin"; prob := (3, 10) |};
                {| lang := py "eng"; prob := (1, 10) |} ]).
  rewrite detect_relevant_langs_eq in Hrun. by injection Hrun as <- _.
Defined.

(** ** Image location *)

(** The downloads a page scan attempted, when it returns, are in order
    the located image URLs: one per [img] element with a non-empty
    source, the source kept as it is when it starts with ["http"] and
    joined to the page URL otherwise. *)
Lemma downloads_follow_image_urls (E : Collaborators) u (st st' : state E) w resp rec :
  page_fetch_succeeds E u (world st) w resp →
  scrape_page E u st = (st', Returned rec) →
  ∃ tr,
    trace st' = trace st ++ tr
    ∧ image_urls E u (BeautifulSoup E (resp_text E resp) (py "html.parser"))
      = Returned (map fst (downloads tr)).
Proof.
  intros Hok Hrun.
  destruct (scrape_page_success E u st st' w resp rec Hok Hrun)
    as (tr & Htr & _ & _ & _ & _ & Hd & _).
  eexists. split; [exact Htr|].
  by rewrite downloads_app.
Qed.

(** C6, at the input where the code departs from it. A relative source
    whose name happens to start with ["http"] is handed on verbatim,
    whatever the page URL and whatever [urljoin] would have made of it:
    it is not resolved against the page URL. *)
Theorem relative_http_name_not_resolved (E : Collaborators) (page_url : pystr) :
  image_urls E page_url [Tag (py "img") {[ py "src" := py "http-logo.png" ]} []]
  = Returned [py "http-logo.png"].
Proof.
  vm_compute. reflexivity.
Qed.

(** The same, seen from a whole scan: the download is attempted on the
    unresolved name. *)
Lemma relative_http_name_downloaded_verbatim :
  ∃ st' rec,
    scrape_page Demo.env Demo.LOGO_URL Demo.start = (st', Returned rec)
    ∧ downloads (trace st') = [(py "http-logo.png", None)]
    ∧ urljoin Demo.env Demo.LOGO_URL (py "http-logo.png")
      = Returned (py "http://example.com/http-logo.png").
Proof. eexists _, _. split; [vm_compute; reflexivity|]. by vm_compute. Qed.

(** ** The batch runner *)

Section BatchFacts.
Context (E : Collaborators).

Let body : list PageRecord → pystr → M E (list PageRecord) :=
  λ results u, r ← scrape_page E u; mret (results ++ [r]).

Lemma batch_body_eq acc u (st : state E) :
  body acc u st =
  match scrape_page E u st with
  | (st1, Returned r) => (st1, Returned (acc ++ [r]))
  | (st1, Raised e) => (st1, Raised e)
  end.
Proof. reflexivity. Qed.

Lemma batch_loop_cons acc u urls (st : state E) :
  for_each E body acc (u :: urls) st =
  match scrape_page E u st with
  | (st1, Returned r) => for_each E body (acc ++ [r]) urls st1
  | (st1, Raised e) => (st1, Raised e)
  end.
Proof.
  cbn [for_each]. unfold mbind, M_bind. rewrite batch_body_eq.
  by destruct (scrape_page E u st) as [st1 [r|e]].
Qed.

(** The list the loop has built so far is only ever appended to. *)
Lemma batch_loop_acc urls : ∀ acc (st : state E),
  for_each E body acc urls st =
  match for_each E body [] urls st with
  | (st', Returned rs) => (st', Returned (acc ++ rs))
  | (st', Raised e) => (st', Raised e)
  end.
Proof.
  induction urls as [|u urls IH]; intros acc st.
  - cbn [for_each]. unfold mret, M_ret. by rewrite app_nil_r.
  - rewrite !batch_loop_cons.
    destruct (scrape_page E u st) as [st1 [r|e]]; [|done].
    rewrite (IH (acc ++ [r])), (IH ([] ++ [r])).
    destruct (for_each E body [] urls st1) as [st2 [rs|e]]; [|done].
    by rewrite <- app_assoc.
Qed.

Lemma batch_loop_returned urls : ∀ (st st' : state E) rs,
  for_each E body [] urls st = (st', Returned rs) → batch_run E urls st st' rs.
Proof.
  induction urls as [|u urls IH]; intros st st' rs.
  - intros [= <- <-]. constructor.
  - rewrite batch_loop_cons.
    destruct (scrape_page E u st) as [st1 [r|e]] eqn:Hrun; [|done].
    rewrite batch_loop_acc.
    destruct (for_each E body [] urls st1) as [st2 [rs'|e]] eqn:Hloop; [|done].
    intros [= <- <-]. econstructor; [exact Hrun|by apply IH].
Qed.

Lemma batch_run_loop urls (st st' : state E) rs :
  batch_run E urls st st' rs → for_each E body [] urls st = (st', Returned rs).
Proof.
  induction 1 as [|u us st st1 st2 r rs Hrun _ IH]; [done|].
  by rewrite batch_loop_cons, Hrun, batch_loop_acc, IH.
Qed.

(** The loop stops at the first scan that raises, and its exception is
    the outcome of the batch. *)
Lemma batch_loop_raised urls1 u urls2 (st st1 st2 : state E) rs e :
  batch_run E urls1 st st1 rs →
  scrape_page E u st1 = (st2, Raised e) →
  for_each E body [] (urls1 ++ u :: urls2) st = (st2, Raised e).
Proof.
  intros Hbatch Hraise.
  induction Hbatch as [|u0 us st st0 st1 r rs Hrun _ IH].
  - by rewrite app_nil_l, batch_loop_cons, Hraise.
  - rewrite <- app_comm_cons, batch_loop_cons, Hrun, batch_loop_acc.
    by rewrite IH.
Qed.

Lemma batch_run_length urls (st st' : state E) rs :
  batch_run E urls st st' rs → length rs = length urls.
Proof. induction 1; simpl; congruence. Qed.

Lemma batch_run_lookup urls (st st' : state E) rs :
  batch_run E urls st st' rs →
  ∀ i u, urls !! i = Some u →
    ∃ r si si', rs !! i = Some r ∧ scrape_page E u si = (si', Returned r)
                ∧ url r = u.
Proof.
  induction 1 as [|u0 us st st1 st2 r rs Hrun Hrest IH]; intros i u Hi; [done|].
  destruct i as [|i]; simpl in *.
  - injection Hi as ->. exists r, st, st1. repeat split; [done|].
    by eapply scrape_page_url.
  - by apply IH.
Qed.

Lemma batch_run_functional urls (st st1 st2 : state E) rs1 rs2 :
  batch_run E urls st st1 rs1 → batch_run E urls st st2 rs2 →
  st1 = st2 ∧ rs1 = rs2.
Proof.
  intros H1. revert st2 rs2.
  induction H1 as [|u us st sa sb r rs Hrun _ IH]; intros st2 rs2 H2;
    inversion H2 as [|? ? ? sa' ? r' rs' Hrun' Hrest']; subst; [done|].
  rewrite Hrun in Hrun'. injection Hrun' as <- <-.
  destruct (IH _ _ Hrest') as [-> ->]. done.
Qed.

End BatchFacts.

(** C7, where the code departs from it. Whenever the batch loop
    returns, its list has the length of the URL list and the record at
    position [i] is what [scrape_page] returned for the URL at position
    [i], the calls being made one after the other in input order.  But
    the loop does not return for every URL list: [scrape_page] raises
    when [urljoin] rejects an image source of a fetched page, nothing
    in [main] catches that, and the batch ends in that exception at the
    first such page, with no list at all. *)
Theorem run_batch_aborts_when_a_scan_raises (E : Collaborators) :
  (∀ urls (st st' : state E) rs,
     run_batch E urls st = (st', Returned rs) →
     batch_run E urls st st' rs
     ∧ length rs = length urls
     ∧ (∀ i u, urls !! i = Some u →
          ∃ r si si', rs !! i = Some r
                      ∧ scrape_page E u si = (si', Returned r)
                      ∧ url r = u))
  ∧ (∀ u (st : state E) w resp e,
       page_fetch_succeeds E u (world st) w resp →
       image_urls E u (BeautifulSoup E (resp_text E resp) (py "html.parser"))
       = Raised e →
       ∃ st' e', scrape_page E u st = (st', Raised e'))
  ∧ (∀ urls1 u urls2 (st st1 st2 : state E) rs e,
       batch_run E urls1 st st1 rs →
       scrape_page E u st1 = (st2, Raised e) →
       run_batch E (urls1 ++ u :: urls2) st = (st2, Raised e)).
Proof.
  split; [|split].
  - intros urls st st' rs Hrun. apply batch_loop_returned in Hrun.
    split; [exact Hrun|].
    split; [by eapply batch_run_length|by eapply batch_run_lookup].
  - intros u st w resp e. apply scrape_page_raises.
  - intros urls1 u urls2 st st1 st2 rs e. apply batch_loop_raised.
Qed.

Lemma run_batch_aborts_when_a_scan_raises_witness :
  image_urls Demo.env Demo.BROKEN_URL
    (BeautifulSoup Demo.env Demo.BROKEN_HTML (py "html.parser"))
  = Raised (Exception (py "Invalid IPv6 URL"))
  ∧ ∃ st',
      run_batch Demo.env [Demo.EMPTY_URL; Demo.BROKEN_URL; Demo.GALLERY_URL] Demo.start
      = (st', Raised (Exception (py "Invalid IPv6 URL")))
      ∧ downloads (trace st')
        = [(py "http://example.com/a.png", Some (py "/tmp/tmpa1/img_1224.png"))].
Proof.
  split; [by vm_compute|].
  eexists. split.
  - eapply (proj2 (proj2 (run_batch_aborts_when_a_scan_raises Demo.env))
              [Demo.EMPTY_URL] Demo.BROKEN_URL [Demo.GALLERY_URL] Demo.start).
    + eapply batch_cons; [vm_compute; reflexivity|apply batch_nil].
    + vm_compute. reflexivity.
  - by vm_compute.
Defined.

(** ** The image fetcher and the OCR extractor *)

(** C9. [download_image] and [ocr_image] return on every input and in
    every state.  Whenever the guarded body of [download_image] raises
    (in particular when the request raises, when the status check
    raises, or when the file cannot be opened) the result is [None];
    whenever the guarded body of [ocr_image] raises (in particular when
    the image cannot be opened) the result is the empty string. *)
Theorem fetcher_and_ocr_never_raise (E : Collaborators) :
  (∀ u tmpdir (st : state E),
     ∃ st' r, download_image E u tmpdir st = (st', Returned r)
              ∧ (∀ s e, download_body E u tmpdir st = (s, Raised e) → r = None))
  ∧ (∀ u tmpdir (st : state E) w e,
       session_get E u 15 true (world st) = (w, Raised e) →
       download_image E u tmpdir st = (State w (trace st), Returned None))
  ∧ (∀ u tmpdir (st : state E) w resp e,
       session_get E u 15 true (world st) = (w, Returned resp) →
       raise_for_status E resp = Raised e →
       download_image E u tmpdir st = (State w (trace st), Returned None))
  ∧ (∀ u tmpdir (st : state E) w resp w' e,
       session_get E u 15 true (world st) = (w, Returned resp) →
       raise_for_status E resp = Returned tt →
       open_wb E (image_path E u tmpdir) w = (w', Raised e) →
       download_image E u tmpdir st = (State w' (trace st), Returned None))
  ∧ (∀ fp (st : state E),
       ∃ st' t, ocr_image E fp st = (st', Returned t)
                ∧ (∀ s e, ocr_body E fp st = (s, Raised e) → t = []))
  ∧ (∀ fp (st : state E) w e,
       Image_open E fp (world st) = (w, Raised e) →
       ocr_image E fp st = (State w (trace st), Returned [])).
Proof.
  repeat split.
  - intros u tmpdir st. rewrite download_image_eq.
    destruct (download_body E u tmpdir st) as [s [r|e]]; eexists _, _; split; done.
  - intros u tmpdir st w e Hget.
    unfold download_image, download_body. run_M. by rewrite Hget.
  - intros u tmpdir st w resp e Hget Hstatus.
    unfold download_image, download_body. run_M. rewrite Hget. cbn.
    by rewrite Hstatus.
  - intros u tmpdir st w resp w' e Hget Hstatus Hopen.
    unfold download_image, download_body. run_M. rewrite Hget. cbn.
    rewrite Hstatus. cbn. by rewrite Hopen.
  - intros fp st. rewrite ocr_image_eq.
    destruct (ocr_body E fp st) as [s [t|e]]; eexists _, _; split; done.
  - intros fp st w e Hopen.
    unfold ocr_image, ocr_body. run_M. by rewrite Hopen.
Qed.

Lemma fetcher_and_ocr_never_raise_witness :
  download_image Demo.env (py "http://example.com/b.png") (py "/tmp/tmpa1") Demo.start
  = (@State Demo.env 1%nat [], Returned None)
  ∧ download_image Demo.env (py "http://nowhere.example/x.png") (py "/tmp/tmpa1") Demo.start
    = (@State Demo.env 1%nat [], Returned None)
  ∧ ocr_image Demo.env (py "/tmp/tmpa1/img_1224.txt") Demo.start
    = (@State Demo.env 0%nat [], Returned []).
Proof.
  destruct (fetcher_and_ocr_never_raise Demo.env)
    as (_ & Hget & Hstatus & _ & _ & Hocr).
  split; [|split].
  - apply (Hstatus _ _ Demo.start 1%nat (404, []) (Exception (py "404 Client Error")));
      vm_compute; reflexivity.
  - apply (Hget _ _ Demo.start 1%nat (Exception (py "Connection refused"))).
    vm_compute. reflexivity.
  - apply (Hocr _ Demo.start 0%nat (Exception (py "cannot identify image file"))).
    vm_compute. reflexivity.
Defined.

(** ** The file name of a downloaded image *)

Section FileName.

Lemma split_head c s :
  ∃ h rest, split c s = h :: rest ∧ (c ∉ h) ∧ (s = h ∨ ∃ t, s = h ++ c :: t).
Proof.
  induction s as [|x s (h & rest & Hs & Hc & Hpre)]; simpl.
  - exists [], []. split; [done|]. split; [apply not_elem_of_nil|by left].
  - destruct (N.eqb_spec x c) as [->|Hne].
    + exists [], (split c s). split; [done|].
      split; [apply not_elem_of_nil|]. right. by exists s.
    + rewrite Hs. exists (x :: h), rest. split; [done|].
      split; [rewrite elem_of_cons; intros [?|?]; [congruence|done]|].
      destruct Hpre as [->|(t & ->)]; [by left|right; by exists t].
Qed.

Lemma rfind_from_spec c s : ∀ i last,
  (rfind_from c s i last = last ∧ c ∉ s)
  ∨ (∃ k : nat, rfind_from c s i last = i + Z.of_nat k
                ∧ s !! k = Some c
                ∧ ∀ j : nat, (k < j)%nat → s !! j ≠ Some c).
Proof.
  induction s as [|d s IH]; intros i last; simpl.
  - left. split; [done|apply not_elem_of_nil].
  - destruct (IH (i + 1) (if (d =? c)%N then i else last))
      as [[Hr Hnot]|(k & Hr & Hk & Hlast)].
    + destruct (N.eqb_spec d c) as [->|Hne].
      * right. exists 0%nat. rewrite Hr. split; [lia|]. split; [done|].
        intros [|j] Hj; [lia|]. simpl. intros Hin.
        apply Hnot. by eapply list_elem_of_lookup_2.
      * left. split; [done|]. rewrite elem_of_cons. intros [?|?]; [congruence|done].
    + right. exists (S k). rewrite Hr. split; [lia|]. split; [done|].
      intros [|j] Hj; [lia|]. simpl. apply Hlast. lia.
Qed.

Lemma rfind_spec c s :
  (rfind c s = -1 ∧ c ∉ s)
  ∨ (∃ k : nat, rfind c s = Z.of_nat k ∧ s !! k = Some c
                ∧ ∀ j : nat, (k < j)%nat → s !! j ≠ Some c).
Proof.
  unfold rfind.
  destruct (rfind_from_spec c s 0 (-1)) as [?|(k & Hr & ?)]; [by left|].
  right. exists k. by rewrite Hr.
Qed.

Lemma splitext_scan_some p d n i r :
  splitext_scan p d n i = Some r → r = (slice_to d p, slice_from d p).
Proof.
  revert i. induction n as [|n IH]; intros i; simpl; [done|].
  case_bool_decide; [by intros [= <-]|apply IH].
Qed.

(** The extension that [splitext] splits off is empty, or it is the
    text from the last dot on, and that dot comes after the last
    slash. *)
Lemma splitext_ext p :
  (splitext p).1 ++ (splitext p).2 = p
  ∧ ((splitext p).2 = []
     ∨ ∃ rest, (splitext p).2 = DOT :: rest ∧ (DOT ∉ rest) ∧ (SLASH ∉ rest)).
Proof.
  unfold splitext.
  destruct (Z.gtb_spec (rfind DOT p) (rfind SLASH p)) as [Hgt|_];
    [|simpl; split; [apply app_nil_r|by left]].
  destruct (splitext_scan p (rfind DOT p) _ _) as [r|] eqn:Hscan;
    [|simpl; split; [apply app_nil_r|by left]].
  apply splitext_scan_some in Hscan as ->. simpl.
  unfold slice_to, slice_from. split; [apply take_drop|]. right.
  destruct (rfind_spec DOT p) as [[Hd _]|(k & Hd & Hk & Hlastdot)].
  { destruct (rfind_spec SLASH p) as [[Hs _]|(ks & Hs & _)]; lia. }
  rewrite Hd, Nat2Z.id.
  exists (drop (S k) p). split; [by apply drop_S|].
  split.
  - intros (j & Hj)%list_elem_of_lookup_1. rewrite lookup_drop in Hj.
    apply (Hlastdot (S k + j)%nat); [lia|done].
  - intros (j & Hj)%list_elem_of_lookup_1. rewrite lookup_drop in Hj.
    destruct (rfind_spec SLASH p) as [[_ Hnot]|(ks & Hs & _ & Hlastslash)].
    + apply Hnot. by eapply list_elem_of_lookup_2.
    + apply (Hlastslash (S k + j)%nat); [lia|done].
Qed.

Lemma image_suffix_cases u :
  let ext := (splitext (hd [] (split QUESTION u))).2 in
  (ext = [] → image_suffix u = py ".jpg")
  ∧ (ext ≠ [] → image_suffix u = take 5 ext).
Proof.
  unfold image_suffix, slice_to. simpl.
  destruct ((splitext (hd [] (split QUESTION u))).2) as [|c ext]; by split.
Qed.

End FileName.




(** ** Worked examples *)

Example strip_example : strip (py "  a b  ") = py "a b".
Proof. reflexivity. Qed.

Example re_sub_spaces_example : re_sub_spaces (py "a   b  c ") = py "a b c ".
Proof. reflexivity. Qed.

Example split_example : split QUESTION (py "a?b?c") = [py "a"; py "b"; py "c"].
Proof. reflexivity. Qed.

Example splitext_examples :
  splitext (py "/a/b.tar.gz") = (py "/a/b.tar", py ".gz")
  ∧ splitext (py "/a.b/c") = (py "/a.b/c", [])
  ∧ splitext (py "/a/.profile") = (py "/a/.profile", [])
  ∧ splitext (py "/a/..x.y") = (py "/a/..x", py ".y").
Proof. by vm_compute. Qed.

(** Scenario 1 of the specification: a page without images whose body
    text is "Hello World". *)
Example scan_page_without_images :
  ∃ st', scrape_page Demo.env Demo.EMPTY_URL Demo.start
         = (st', Returned {| url := Demo.EMPTY_URL; visible_text := py "Hello World";
                             visible_text_langs := []; images := [];
                             error := None |}).
Proof. eexists. vm_compute. reflexivity. Qed.

(** A page with four image elements: one without source, one that
    downloads, one that fails to download, one whose OCR fails. *)
Example scan_gallery :
  ∃ st', scrape_page Demo.env3 Demo.GALLERY_URL Demo.start3
         = (st', Returned
              {| url := Demo.GALLERY_URL; visible_text := [];
                 visible_text_langs := [py "lav"; py "eng"];
                 images :=
                   [ {| src := py "http://example.com/a.png";
                        ocr_text := py "Sveiki";
                        ocr_langs := [py "lav"; py "eng"] |};
                     {| src := py "http://example.com/c.txt";
                        ocr_text := [];
                        ocr_langs := [py "lav"; py "eng"] |} ];
                 error := None |})
         ∧ downloads (trace st')
           = [ (py "http://example.com/a.png", Some (py "/tmp/tmpa1/img_1224.png"));
               (py "http://example.com/b.png", None);
               (py "http://example.com/c.txt", Some (py "/tmp/tmpa1/img_1224.txt")) ].
Proof. eexists. split; vm_compute; reflexivity. Qed.

(** * Further properties *)

(** X1. The visible text is normalised: it is empty or begins and ends
    with a character that is not whitespace, and stripping it or
    collapsing its whitespace again leaves it unchanged. *)
Theorem extract_visible_text_normalised (E : Collaborators) (html : pystr) :
  no_edge_whitespace (extract_visible_text E html)
  ∧ strip (extract_visible_text E html) = extract_visible_text E html
  ∧ re_sub_spaces (extract_visible_text E html) = extract_visible_text E html.
Proof.
  assert (no_edge_whitespace (extract_visible_text E html)) as Hedge.
  { unfold extract_visible_text, visible_text_of.
    apply re_sub_spaces_no_edge_whitespace, join_no_edge_whitespace.
    apply Forall_map, Forall_forall. intros t Ht.
    apply list_elem_of_In, filter_In in Ht as [_ Hvis].
    apply is_visible_element_true in Hvis as (_ & _ & Hne).
    split; [done|apply strip_no_edge_whitespace]. }
  split; [done|]. split; [by apply strip_fixed|].
  unfold extract_visible_text, visible_text_of, re_sub_spaces.
  apply sub_spaces_idempotent.
Qed.

(** ** Records of the scanner *)

Ltac run_M_in H :=
  unfold mbind, M_bind, mret, M_ret, call, lift, raise, log,
    try_except, try_finally in H; cbn in H.

Section RecordFacts.
Context (E : Collaborators).

Lemma detect_relevant_langs_result text (st st' : state E) r :
  detect_relevant_langs E text st = (st', Returned r) →
  Forall (λ c, c ∈ SUPPORTED_CODES) r.
Proof.
  rewrite detect_relevant_langs_eq.
  destruct (detect_langs E text (world st)) as [w [langs|e]]; intros [= _ <-];
    [apply relevant_codes_supported|constructor].
Qed.

Lemma scan_image_langs page_url dtmp p img (st st' : state E) p' :
  scan_image E page_url dtmp p img st = (st', Returned p') →
  record_langs_supported p → record_langs_supported p'.
Proof.
  intros Hrun [Hpage Himgs]. unfold scan_image in Hrun.
  destruct (img_src img) as [|c s]; [by injection Hrun as _ <-|].
  destruct (resolve_src E page_url (c :: s)) as [u|e]; [|done].
  run_M_in Hrun.
  destruct (download_image E u dtmp st) as [st1 [[fp|]|e]]; cbn in Hrun;
    [|by injection Hrun as _ <-|done].
  destruct (ocr_image E fp _) as [st3 [text|e]]; cbn in Hrun; [|done].
  destruct (detect_relevant_langs E text _) as [st5 [langs|e]] eqn:Hl;
    cbn in Hrun; [|done].
  injection Hrun as _ <-. split; [done|]. simpl.
  apply Forall_app. split; [done|].
  constructor; [|constructor]. simpl.
  by eapply detect_relevant_langs_result.
Qed.

Lemma image_loop_langs page_url dtmp tags : ∀ p (st st' : state E) p',
  for_each E (scan_image E page_url dtmp) p tags st = (st', Returned p') →
  record_langs_supported p → record_langs_supported p'.
Proof.
  induction tags as [|img tags IH]; intros p st st' p'; simpl.
  - by intros [= _ <-].
  - unfold mbind, M_bind.
    destruct (scan_image E page_url dtmp p img st) as [st1 [p1|e]] eqn:Hs; [|done].
    intros Hloop Hp. eapply IH; [exact Hloop|]. by eapply scan_image_langs.
Qed.

Lemma scrape_page_langs u (st st' : state E) rec :
  scrape_page E u st = (st', Returned rec) → record_langs_supported rec.
Proof.
  intros Hrun.
  destruct (page_fetch_cases E u (world st)) as [(w & e & Hf)|(w & resp & Hok)].
  { rewrite (scrape_page_failure E u st w e Hf) in Hrun.
    injection Hrun as _ <-. by split. }
  rewrite (scrape_page_after_fetch E u st w resp Hok) in Hrun. cbv zeta in Hrun.
  destruct (detect_relevant_langs E _ _) as [st2 [langs|e]] eqn:Hl; [|done].
  apply detect_relevant_langs_result in Hl.
  destruct (find_all (py "img") _) as [|t ts].
  { injection Hrun as _ <-. by split. }
  rewrite with_TemporaryDirectory_eq in Hrun.
  destruct (mkdtemp E (world st2)) as [w3 [dtmp|e]]; [|done].
  destruct (for_each E _ _ (t :: ts) _) as [st4 [p4|e]] eqn:Hloop;
    [|by destruct (cleanup E dtmp (world st4)) as [w5 [[]|e']]].
  destruct (cleanup E dtmp (world st4)) as [w5 [[]|e']]; [|done].
  injection Hrun as _ <-.
  eapply (image_loop_langs u dtmp (t :: ts)); [exact Hloop|]. by split.
Qed.

Lemma successes_sublist ds : successes ds `sublist_of` map fst ds.
Proof.
  induction ds as [|[u [fp|]] ds IH]; simpl; [constructor| |]; by constructor.
Qed.

End RecordFacts.

(** X2. Every record [scrape_page] returns carries supported language
    codes only, for the page text and for every image, whatever the
    detector reports. *)
Theorem scrape_page_langs_supported (E : Collaborators) (u : pystr)
    (st st' : state E) (rec : PageRecord) :
  scrape_page E u st = (st', Returned rec) → record_langs_supported rec.
Proof. apply scrape_page_langs. Qed.

Lemma scrape_page_langs_supported_witness :
  ∃ st' rec,
    scrape_page Demo.env3 Demo.GALLERY_URL Demo.start3 = (st', Returned rec)
    ∧ visible_text_langs rec = [py "lav"; py "eng"]
    ∧ length (images rec) = 2%nat
    ∧ record_langs_supported rec.
Proof.
  eexists _, _. split; [vm_compute; reflexivity|].
  split; [reflexivity|]. split; [reflexivity|].
  eapply (scrape_page_langs_supported Demo.env3 Demo.GALLERY_URL Demo.start3).
  vm_compute. reflexivity.
Defined.

(** X3. Whenever a record is returned for a fetched page, every image
    source of the page resolved, and the sources of the image records
    are, in order, a subsequence of the located image URLs: no record
    is invented, repeated or reordered. *)
Theorem image_sources_follow_document (E : Collaborators) (u : pystr)
    (st st' : state E) w resp (rec : PageRecord) :
  page_fetch_succeeds E u (world st) w resp →
  scrape_page E u st = (st', Returned rec) →
  ∃ img_urls,
    image_urls E u (BeautifulSoup E (resp_text E resp) (py "html.parser"))
    = Returned img_urls
    ∧ map src (images rec) `sublist_of` img_urls.
Proof.
  intros Hok Hrun.
  destruct (scrape_page_success E u st st' w resp rec Hok Hrun)
    as (tr & _ & _ & _ & _ & _ & Hd & Hs & _).
  eexists. split; [exact Hd|].
  rewrite Hs. apply successes_sublist.
Qed.

Lemma image_sources_follow_document_witness :
  ∃ st' rec,
    scrape_page Demo.env Demo.GALLERY_URL Demo.start = (st', Returned rec)
    ∧ map src (images rec)
      = [py "http://example.com/a.png"; py "http://example.com/c.txt"]
    ∧ ∃ img_urls,
        image_urls Demo.env Demo.GALLERY_URL
          (BeautifulSoup Demo.env Demo.GALLERY_HTML (py "html.parser"))
        = Returned img_urls
        ∧ map src (images rec) `sublist_of` img_urls.
Proof.
  eexists _, _. split; [vm_compute; reflexivity|]. split; [reflexivity|].
  eapply (image_sources_follow_document Demo.env Demo.GALLERY_URL Demo.start
            _ 1%nat (200, Demo.GALLERY_HTML)).
  - split; vm_compute; reflexivity.
  - vm_compute. reflexivity.
Defined.

(** ** The downloaded file stays in its directory *)

Section FileInDirectory.

Lemma string_of_uint_digits d : Forall is_digit (py (NilEmpty.string_of_uint d)).
Proof.
  induction d; simpl; try constructor; try done; unfold is_digit; simpl; lia.
Qed.

Lemma str_of_int_abs_digits n : Forall is_digit (str_of_int (Z.abs n)).
Proof.
  unfold str_of_int.
  assert (∀ p, Forall is_digit
                 (py (NilZero.string_of_int (Z.to_int (Z.pos p))))) as Hpos.
  { intros p. simpl. unfold NilZero.string_of_uint.
    pose proof (string_of_uint_digits (Pos.to_uint p)) as Hd.
    destruct (Pos.to_uint p); try exact Hd.
    repeat constructor; unfold is_digit; simpl; lia. }
  destruct n as [|p|p]; [|apply Hpos|apply Hpos].
  repeat constructor; unfold is_digit; simpl; lia.
Qed.

Lemma image_suffix_shape u :
  ∃ rest, image_suffix u = DOT :: rest ∧ (SLASH ∉ rest) ∧ (length rest ≤ 4)%nat.
Proof.
  destruct (image_suffix_cases u) as [Hempty Hext].
  destruct (splitext_ext (hd [] (split QUESTION u))) as [_ [Hnil|(rest & Hr & _ & Hslash)]].
  - rewrite (Hempty Hnil). exists (py "jpg"). split; [done|].
    split; [|simpl; lia]. apply (bool_decide_unpack _). by vm_compute.
  - rewrite Hext by (by rewrite Hr). rewrite Hr. simpl.
    exists (take 4 rest). split; [done|].
    split; [|rewrite length_take; lia].
    intros Hin. apply Hslash. eapply elem_of_sublist; [exact Hin|].
    apply sublist_take.
Qed.

End FileInDirectory.

(** X4. The file a successful download returns lies directly in the
    directory it was given: its path is the directory, one slash, and a
    name that starts with [img_], continues with decimal digits, ends
    with a suffix of a dot and at most four more characters, and
    contains no slash. *)
Theorem downloaded_file_in_directory (E : Collaborators) (u : pystr)
    (tmpdir : Path) (st st' : state E) (fp : Path) :
  download_image E u tmpdir st = (st', Returned (Some fp)) →
  ∃ digits rest,
    fp = tmpdir ++ [SLASH] ++ (py "img_" ++ digits ++ DOT :: rest)
    ∧ Forall is_digit digits
    ∧ (length rest ≤ 4)%nat
    ∧ (SLASH ∉ (py "img_" ++ digits ++ DOT :: rest)).
Proof.
  intros ->%download_image_result.
  destruct (image_suffix_shape u) as (rest & Hsuffix & Hslash & Hlen).
  pose proof (str_of_int_abs_digits (url_hash E u)) as Hdigits.
  exists (str_of_int (Z.abs (url_hash E u))), rest.
  unfold image_path, path_join. rewrite Hsuffix.
  split; [done|]. split; [done|]. split; [done|].
  rewrite !elem_of_app, elem_of_cons.
  intros [Hin|[Hin|[Hin|Hin]]]; [|..|done].
  - revert Hin. apply (bool_decide_unpack _). by vm_compute.
  - rewrite Forall_forall in Hdigits. apply Hdigits in Hin.
    unfold is_digit, SLASH in Hin. lia.
  - discriminate.
Qed.

Lemma downloaded_file_in_directory_witness :
  ∃ digits rest,
    py "/tmp/tmpa1/img_1224.png"
    = py "/tmp/tmpa1" ++ [SLASH] ++ (py "img_" ++ digits ++ DOT :: rest)
    ∧ Forall is_digit digits
    ∧ (length rest ≤ 4)%nat
    ∧ (SLASH ∉ (py "img_" ++ digits ++ DOT :: rest)).
Proof.
  apply (downloaded_file_in_directory Demo.env (py "http://example.com/a.png")
           (py "/tmp/tmpa1") Demo.start (@State Demo.env 1%nat [])).
  vm_compute. reflexivity.
Defined.

(** ** Splitting a batch *)

Section BatchSplit.
Context (E : Collaborators).

Lemma for_each_app {A B} (body : A → B → M E A) l1 l2 : ∀ acc (st : state E),
  for_each E body acc (l1 ++ l2) st =
  match for_each E body acc l1 st with
  | (st1, Returned a) => for_each E body a l2 st1
  | (st1, Raised e) => (st1, Raised e)
  end.
Proof.
  induction l1 as [|x l1 IH]; intros acc st; simpl; [done|].
  unfold mbind, M_bind. destruct (body acc x st) as [st1 [a|e]]; [apply IH|done].
Qed.

End BatchSplit.

(** X5. A batch can be split: scanning [urls1 ++ urls2] is scanning
    [urls1] and then, from the state that left, [urls2].  When both
    parts return, the records are those of the first part followed by
    those of the second; when the first part raises, the second is not
    run and that exception is the outcome; when the second raises, its
    exception is the outcome and the records of the first are lost. *)
Theorem run_batch_app (E : Collaborators) (urls1 urls2 : list pystr) (st : state E) :
  run_batch E (urls1 ++ urls2) st =
  match run_batch E urls1 st with
  | (st1, Raised e) => (st1, Raised e)
  | (st1, Returned rs1) =>
      match run_batch E urls2 st1 with
      | (st2, Raised e) => (st2, Raised e)
      | (st2, Returned rs2) => (st2, Returned (rs1 ++ rs2))
      end
  end.
Proof.
  unfold run_batch. rewrite for_each_app.
  destruct (for_each E _ [] urls1 st) as [st1 [rs1|e]]; [|done].
  apply batch_loop_acc.
Qed.

Lemma run_batch_app_witness :
  (∃ st', run_batch Demo.env ([Demo.MISSING_URL] ++ [Demo.EMPTY_URL]) Demo.start
          = (st', Returned
               [ {| url := Demo.MISSING_URL; visible_text := [];
                    visible_text_langs := []; images := [];
                    error := Some (py "404 Client Error") |};
                 {| url := Demo.EMPTY_URL; visible_text := py "Hello World";
                    visible_text_langs := []; images := []; error := None |} ]))
  ∧ (∃ st', run_batch Demo.env ([Demo.EMPTY_URL] ++ [Demo.BROKEN_URL; Demo.GALLERY_URL])
              Demo.start
            = (st', Raised (Exception (py "Invalid IPv6 URL")))).
Proof.
  split; eexists; rewrite run_batch_app; vm_compute; reflexivity.
Defined.

(** ** The markdown rendering *)

Section MarkdownFacts.

Lemma format_image_acc lines img :
  format_image lines img = lines ++ format_image [] img.
Proof.
  unfold format_image. destruct (ocr_langs img); simpl; by rewrite <- ?app_assoc.
Qed.

Lemma format_images_acc imgs : ∀ lines,
  fold_left format_image imgs lines = lines ++ flat_map (format_image []) imgs.
Proof.
  induction imgs as [|img imgs IH]; intros lines; simpl; [by rewrite app_nil_r|].
  by rewrite IH, format_image_acc, <- app_assoc.
Qed.

Lemma format_page_acc lines page :
  format_page lines page = lines ++ page_lines page.
Proof.
  unfold page_lines, format_page.
  destruct (error page); [by rewrite app_nil_l, <- app_assoc|].
  destruct (visible_text_langs page), (images page);
    rewrite ?format_images_acc, ?app_nil_l, <- ?app_assoc; reflexivity.
Qed.

Lemma format_pages_acc results : ∀ lines,
  fold_left format_page results lines = lines ++ flat_map page_lines results.
Proof.
  induction results as [|page results IH]; intros lines; simpl;
    [by rewrite app_nil_r|].
  by rewrite IH, format_page_acc, <- app_assoc.
Qed.

Lemma page_lines_nonempty page : page_lines page ≠ [].
Proof.
  unfold page_lines, format_page. intros H. apply (f_equal length) in H.
  destruct (error page), (visible_text_langs page), (images page);
    rewrite ?format_images_acc, ?length_app in H; simpl in H; lia.
Qed.

Lemma join_app sep (l1 l2 : list pystr) :
  l1 ≠ [] → l2 ≠ [] → join sep (l1 ++ l2) = join sep l1 ++ sep ++ join sep l2.
Proof.
  intros H1 H2. induction l1 as [|p l1 IH]; [done|].
  destruct l1 as [|q l1].
  - destruct l2; done.
  - change (join sep ((p :: q :: l1) ++ l2))
      with (p ++ sep ++ join sep ((q :: l1) ++ l2)).
    rewrite IH by done. simpl. by rewrite <- !app_assoc.
Qed.

Lemma flat_map_page_lines_nonempty results :
  results ≠ [] → flat_map page_lines results ≠ [].
Proof.
  destruct results as [|page results]; [done|]. intros _. simpl.
  pose proof (page_lines_nonempty page). by destruct (page_lines page).
Qed.

Lemma lang_name_supported c :
  c ∈ SUPPORTED_CODES →
  lang_name c ∈ [py "Latvian"; py "Russian"; py "English"].
Proof.
  unfold SUPPORTED_CODES. rewrite !elem_of_cons, elem_of_nil.
  intros [->|[->|[->|[]]]]; apply (bool_decide_unpack _); by vm_compute.
Qed.

Lemma lang_name_foreign c : c ∉ SUPPORTED_CODES → lang_name c = c.
Proof.
  intros Hc. unfold lang_name.
  destruct (TARGET_LANGS !! c) as [n|] eqn:Hn; [|done].
  destruct Hc. apply in_target_langs_spec. unfold in_target_langs.
  apply bool_decide_eq_true. by exists n.
Qed.

End MarkdownFacts.

(** X6. The markdown of a batch is the markdown of its parts joined by
    a line break: for non-empty lists of records,
    [format (r1 ++ r2) = format r1 ++ "\n" ++ format r2], and the
    markdown of no records is the empty string. *)
Theorem format_results_as_markdown_app (results1 results2 : list PageRecord) :
  results1 ≠ [] → results2 ≠ [] →
  format_results_as_markdown (results1 ++ results2)
  = format_results_as_markdown results1 ++ NL
    ++ format_results_as_markdown results2.
Proof.
  intros H1 H2. unfold format_results_as_markdown.
  rewrite !format_pages_acc. simpl. rewrite flat_map_app.
  apply join_app; by apply flat_map_page_lines_nonempty.
Qed.

Lemma format_results_as_markdown_app_witness :
  format_results_as_markdown [Demo2.PAGE_ERR; Demo2.PAGE_OK]
  = format_results_as_markdown [Demo2.PAGE_ERR] ++ NL
    ++ format_results_as_markdown [Demo2.PAGE_OK].
Proof.
  by apply (format_results_as_markdown_app [Demo2.PAGE_ERR] [Demo2.PAGE_OK]).
Defined.

(** X7. A page whose fetch failed is rendered as its heading and one
    bold error line, and nothing else: no text section, no language
    line, no image section. *)
Theorem failed_page_markdown (E : Collaborators) (u : pystr) (st : state E) w e :
  page_fetch_fails E u (world st) w e →
  ∃ st' rec,
    scrape_page E u st = (st', Returned rec)
    ∧ format_results_as_markdown [rec]
      = (py "# URL: " ++ u ++ NL) ++ NL ++ (u8 "**Ошибка:** " ++ exn_str e ++ NL).
Proof.
  intros Hfail. eexists _, _. split; [by apply scrape_page_failure|done].
Qed.

Lemma failed_page_markdown_witness :
  ∃ st' rec,
    scrape_page Demo.env Demo.MISSING_URL Demo.start = (st', Returned rec)
    ∧ format_results_as_markdown [rec]
      = (py "# URL: " ++ Demo.MISSING_URL ++ NL) ++ NL
        ++ (u8 "**Ошибка:** " ++ py "404 Client Error" ++ NL).
Proof.
  apply (failed_page_markdown Demo.env Demo.MISSING_URL Demo.start 1%nat
           (Exception (py "404 Client Error"))).
  right. exists (404, []). split; vm_compute; reflexivity.
Defined.

(** X8. In the markdown of every record the scanner returns, every
    language is shown by its full name (Latvian, Russian or English);
    the fallback of [TARGET_LANGS.get(l, l)], which would show a raw
    code, is never taken for scanner output, though it is for any other
    code. *)
Theorem scanner_languages_have_names (E : Collaborators) (u : pystr) (st : state E) :
  (∀ st' rec,
     scrape_page E u st = (st', Returned rec) →
     Forall (λ n, n ∈ [py "Latvian"; py "Russian"; py "English"])
       (map lang_name (visible_text_langs rec))
     ∧ Forall (λ i, Forall (λ n, n ∈ [py "Latvian"; py "Russian"; py "English"])
                      (map lang_name (ocr_langs i)))
         (images rec))
  ∧ (∀ c, c ∉ SUPPORTED_CODES → lang_name c = c).
Proof.
  split; [|apply lang_name_foreign].
  intros st' rec Hrun.
  destruct (scrape_page_langs E u st st' rec Hrun) as [Hpage Himgs].
  split.
  - apply Forall_map. eapply Forall_impl; [exact Hpage|].
    intros c. apply lang_name_supported.
  - eapply Forall_impl; [exact Himgs|]. intros i Hi.
    apply Forall_map. eapply Forall_impl; [exact Hi|].
    intros c. apply lang_name_supported.
Qed.

Lemma scanner_languages_have_names_witness :
  lang_name (py "fin") = py "fin"
  ∧ ∃ st' rec,
      scrape_page Demo.env3 Demo.GALLERY_URL Demo.start3 = (st', Returned rec)
      ∧ map lang_name (visible_text_langs rec) = [py "Latvian"; py "English"]
      ∧ Forall (λ n, n ∈ [py "Latvian"; py "Russian"; py "English"])
          (map lang_name (visible_text_langs rec))
      ∧ Forall (λ i, Forall (λ n, n ∈ [py "Latvian"; py "Russian"; py "English"])
                       (map lang_name (ocr_langs i)))
          (images rec).
Proof.
  destruct (scanner_languages_have_names Demo.env3 Demo.GALLERY_URL Demo.start3)
    as [Hnames Hforeign].
  split.
  - apply Hforeign. apply (bool_decide_unpack _). by vm_compute.
  - eexists _, _. split; [vm_compute; reflexivity|]. split; [by vm_compute|].
    eapply Hnames. vm_compute. reflexivity.
Defined.

(** ** The text-only rendering *)

Section TextOnlyFacts.

Lemma ocr_texts_images imgs : ∀ texts,
  fold_left
    (λ texts img,
       let text := strip (ocr_text img) in
       match text with [] => texts | _ => texts ++ [text] end)
    imgs texts
  = texts ++ nonblank_ocr_texts imgs.
Proof.
  unfold nonblank_ocr_texts.
  induction imgs as [|img imgs IH]; intros texts; simpl; [by rewrite app_nil_r|].
  rewrite IH. destruct (strip (ocr_text img)); simpl; [done|].
  by rewrite <- app_assoc.
Qed.

Lemma ocr_texts_pages results : ∀ texts,
  fold_left
    (λ texts page,
       fold_left
         (λ texts img,
            let text := strip (ocr_text img) in
            match text with [] => texts | _ => texts ++ [text] end)
         (images page) texts)
    results texts
  = texts ++ nonblank_ocr_texts (flat_map images results).
Proof.
  unfold nonblank_ocr_texts.
  induction results as [|page results IH]; intros texts; simpl;
    [by rewrite app_nil_r|].
  rewrite IH, ocr_texts_images. unfold nonblank_ocr_texts.
  by rewrite map_app, List.filter_app, <- app_assoc.
Qed.

End TextOnlyFacts.

(** X9. The text-only output lists, in page and image order, the
    stripped OCR text of every image whose stripped text is not empty:
    each excerpt is non-empty and has no whitespace at its ends; when no
    image has such text (no image at all, or only blank OCR results) the
    output is a single line break. *)
Theorem print_ocr_text_only_excerpts (results : list PageRecord) :
  ocr_texts results = nonblank_ocr_texts (flat_map images results)
  ∧ print_ocr_text_only results = join (NL ++ NL) (ocr_texts results) ++ NL
  ∧ Forall (λ t, t ≠ [] ∧ no_edge_whitespace t) (ocr_texts results)
  ∧ (Forall (λ i, strip (ocr_text i) = []) (flat_map images results) →
     print_ocr_text_only results = NL).
Proof.
  assert (ocr_texts results = nonblank_ocr_texts (flat_map images results)) as Htexts.
  { unfold ocr_texts. by rewrite ocr_texts_pages. }
  split; [done|]. split; [done|]. split.
  - rewrite Htexts. unfold nonblank_ocr_texts.
    apply Forall_forall. intros t Ht.
    apply list_elem_of_In, filter_In in Ht as [Hin Hne].
    apply negb_true_iff, bool_decide_eq_false in Hne. split; [done|].
    apply in_map_iff in Hin as (i & <- & _). apply strip_no_edge_whitespace.
  - intros Hblank. unfold print_ocr_text_only. rewrite Htexts.
    unfold nonblank_ocr_texts.
    rewrite filter_all_false; [done|].
    apply Forall_map. eapply Forall_impl; [exact Hblank|].
    intros i ->. done.
Qed.

Lemma print_ocr_text_only_excerpts_witness :
  print_ocr_text_only
    [Demo2.PAGE_ERR;
     {| url := py "http://example.com/blank"; visible_text := py "x";
        visible_text_langs := [];
        images := [ {| src := py "http://example.com/b.png"; ocr_text := py "  ";
                       ocr_langs := [] |} ];
        error := None |}]
  = NL
  ∧ ocr_texts [Demo2.PAGE_ERR; Demo2.PAGE_OK] = [py "Sveiki"].
Proof.
  split; [|by vm_compute].
  apply print_ocr_text_only_excerpts.
  repeat constructor.
Defined.

(** ** Text of a tag *)

Section GetTextFacts.

Lemma tags_named_are_tags name e :
  Forall (λ x, ∃ a cs, x = Tag name a cs) (tags_named name e).
Proof.
  induction e as [c s|n a cs IH] using PageElement_nested_ind; simpl; [constructor|].
  apply Forall_app. split.
  - destruct (decide (n = name)) as [->|_]; [|constructor].
    constructor; [by eexists _, _|constructor].
  - induction IH as [|c cs Hc _ IHcs]; simpl; [constructor|].
    apply Forall_app. by split.
Qed.

Lemma find_all_are_tags name soup :
  Forall (λ x, ∃ a cs, x = Tag name a cs) (find_all name soup).
Proof.
  unfold find_all. induction soup as [|e soup IH]; simpl; [constructor|].
  apply Forall_app. split; [apply tags_named_are_tags|done].
Qed.

Lemma find_where_is_tag name keep soup e :
  find_where name keep soup = Some e → ∃ a cs, e = Tag name a cs.
Proof.
  unfold find_where, find_all_where. intros He.
  apply head_Some_elem_of, list_elem_of_In, filter_In in He as [Hin _].
  pose proof (find_all_are_tags name soup) as Htags.
  rewrite Forall_forall in Htags. by apply Htags, list_elem_of_In.
Qed.

(** With [strip=True] every piece is non-empty and trimmed. *)
Lemma all_strings_stripped types nodes :
  Forall (λ p, p ≠ [] ∧ no_edge_whitespace p) (all_strings types true nodes).
Proof.
  unfold all_strings. induction nodes as [|t nodes IH]; simpl; [constructor|].
  destruct (bool_decide (node_class t ∈ types)); [|done].
  simpl. case_bool_decide as Hlen; simpl; [done|].
  constructor; [|done]. split; [|apply strip_no_edge_whitespace].
  intros Hnil. apply Hlen. by rewrite Hnil.
Qed.

Lemma get_text_stripped sep n a cs :
  no_edge_whitespace (get_text sep true (Tag n a cs)).
Proof. apply join_no_edge_whitespace, all_strings_stripped. Qed.

End GetTextFacts.

Lemma all_strings_pieces nodes :
  all_strings [NavigableString; CData] true nodes = text_pieces nodes.
Proof.
  unfold all_strings, text_pieces.
  induction nodes as [|t nodes IH]; [done|].
  cbn [omap list_omap List.filter map].
  destruct (bool_decide (node_class t ∈ [NavigableString; CData])); [|exact IH].
  cbn [map List.filter]. rewrite <- IH.
  destruct (strip (node_text t)) as [|c s]; done.
Qed.

Lemma get_text_pieces sep a cs :
  get_text sep true (Tag (py "div") a cs)
  = join sep (text_pieces (tag_strings (Tag (py "div") a cs))).
Proof. unfold get_text. by rewrite <- all_strings_pieces. Qed.

Lemma soup_get_text_pieces sep soup :
  soup_get_text sep true soup = join sep (text_pieces (find_all_strings soup)).
Proof. unfold soup_get_text. by rewrite <- all_strings_pieces. Qed.

Lemma text_pieces_trimmed nodes :
  Forall (λ p, p ≠ [] ∧ no_edge_whitespace p) (text_pieces nodes).
Proof. rewrite <- all_strings_pieces. apply all_strings_stripped. Qed.

(** X10. The vacancy text is made of the text pieces of the
    description block (the first [div] whose class holds
    [vacancy-description]), or of the whole page when there is no such
    block: the plain strings and CDATA sections found there, in
    document order, each stripped, those that are then empty left out,
    joined by line breaks.  Comments and the content of [<script>] and
    [<style>] are no part of it.  So it never begins or ends with
    whitespace and stripping it changes nothing. *)
Theorem extract_vacancy_data_trimmed (E : Collaborators) (html : pystr) :
  let soup := BeautifulSoup E html (py "html.parser") in
  let pieces := text_pieces (vacancy_strings soup) in
  extract_vacancy_data E html = join NL pieces
  ∧ Forall (λ p, p ≠ [] ∧ no_edge_whitespace p) pieces
  ∧ no_edge_whitespace (extract_vacancy_data E html)
  ∧ strip (extract_vacancy_data E html) = extract_vacancy_data E html.
Proof.
  intros soup pieces.
  assert (extract_vacancy_data E html = join NL pieces) as Hjoin.
  { unfold extract_vacancy_data, pieces, vacancy_strings. fold soup.
    destruct (find_where _ _ soup) as [desc|] eqn:Hdesc.
    - apply find_where_is_tag in Hdesc as (a & cs & ->).
      apply get_text_pieces.
    - apply soup_get_text_pieces. }
  assert (no_edge_whitespace (extract_vacancy_data E html)) as Hedge.
  { rewrite Hjoin. apply join_no_edge_whitespace, text_pieces_trimmed. }
  split; [done|]. split; [apply text_pieces_trimmed|].
  split; [done|by apply strip_fixed].
Qed.

Lemma extract_vacancy_data_trimmed_witness :
  extract_vacancy_data Demo2.env Demo2.VACANCY_HTML
  = py "Python developer" ++ NL ++ py "Riga"
  ∧ extract_vacancy_data Demo2.env Demo2.PLAIN_HTML = py "Hello" ++ NL ++ py "World".
Proof.
  split.
  - rewrite (proj1 (extract_vacancy_data_trimmed Demo2.env Demo2.VACANCY_HTML)).
    by vm_compute.
  - rewrite (proj1 (extract_vacancy_data_trimmed Demo2.env Demo2.PLAIN_HTML)).
    by vm_compute.
Defined.

(** ** Résumé markdown ([parse_ss_lv.py]) *)

Section ResumeFacts.

Lemma info_rows_fold rows : ∀ lines,
  fold_left info_row rows lines = lines ++ omap row_line rows.
Proof.
  induction rows as [|row rows IH]; intros lines; simpl; [by rewrite app_nil_r|].
  rewrite IH. unfold info_row, row_line.
  destruct (tag_find_all (py "td") row) as [|c0 [|c1 [|c2 cols]]]; simpl;
    rewrite <- ?app_assoc; done.
Qed.

Lemma resume_info_lines_eq soup :
  resume_info_lines soup = omap row_line (info_rows soup).
Proof.
  unfold resume_info_lines, info_rows.
  destruct (find_where _ _ _); [apply info_rows_fold|done].
Qed.

Lemma tag_find_all_are_tags name e :
  Forall (λ x, ∃ a cs, x = Tag name a cs) (tag_find_all name e).
Proof.
  destruct e as [n a cs|c s]; simpl; [|constructor].
  induction cs as [|c cs IH]; simpl; [constructor|].
  apply Forall_app. split; [apply tags_named_are_tags|done].
Qed.

Lemma row_line_shape row line :
  row_line row = Some line →
  length (tag_find_all (py "td") row) = 2%nat
  ∧ ∃ key value,
      line = py "- **" ++ key ++ py "**: " ++ value
      ∧ no_edge_whitespace key ∧ no_edge_whitespace value.
Proof.
  unfold row_line.
  pose proof (tag_find_all_are_tags (py "td") row) as Htags.
  destruct (tag_find_all (py "td") row) as [|c0 [|c1 [|c2 cols]]]; try done.
  intros [= <-]. split; [done|].
  inversion Htags as [|? ? (a0 & cs0 & ->) Htags']; subst.
  inversion Htags' as [|? ? (a1 & cs1 & ->) _]; subst.
  eexists _, _. split; [reflexivity|]. split; apply get_text_stripped.
Qed.

Lemma omap_length_filter {A B} (f : A → option B) l :
  length (omap f l) = length (List.filter (λ x, bool_decide (is_Some (f x))) l).
Proof.
  induction l as [|x l IH]; simpl; [done|].
  destruct (f x); simpl; [f_equal|]; exact IH.
Qed.

End ResumeFacts.

(** X11. The information section of the résumé markdown holds, in
    document order, one bullet for each row of the first [msg_table]
    table that has exactly two cells: the bullet of such a row is
    [- **key**: value] with the text of its first cell as key and the
    text of its second as value.  Rows with any other number of cells
    are dropped without notice, and there are no bullets at all when
    the page has no such table.  The key and the value of a bullet
    carry no whitespace at their ends. *)
Theorem resume_info_lines_two_cell_rows (soup : BeautifulSoupTree) :
  resume_info_lines soup
  = omap (λ row,
            match tag_find_all (py "td") row with
            | [c0; c1] =>
                Some (py "- **" ++ get_text [] true c0 ++ py "**: "
                      ++ get_text [] true c1)
            | _ => None
            end)
      (info_rows soup)
  ∧ length (resume_info_lines soup)
    = length (List.filter (λ row, bool_decide (length (tag_find_all (py "td") row) = 2%nat))
                (info_rows soup))
  ∧ Forall (λ line, ∃ key value,
              line = py "- **" ++ key ++ py "**: " ++ value
              ∧ no_edge_whitespace key ∧ no_edge_whitespace value)
      (resume_info_lines soup)
  ∧ (find_where (py "table") (matches_class (py "msg_table")) soup = None →
     resume_info_lines soup = []).
Proof.
  split; [apply resume_info_lines_eq|].
  rewrite resume_info_lines_eq. split; [|split].
  - rewrite omap_length_filter. f_equal. apply List.filter_ext. intros row.
    unfold row_line.
    destruct (tag_find_all (py "td") row) as [|c0 [|c1 [|c2 cols]]]; simpl;
      by repeat case_bool_decide.
  - apply Forall_forall. intros line Hline.
    apply list_elem_of_omap in Hline as (row & _ & Hrow).
    by apply row_line_shape in Hrow as [_ ?].
  - unfold info_rows. by intros ->.
Qed.

Lemma resume_info_lines_two_cell_rows_witness :
  resume_info_lines Demo2.PLAIN_TREE = []
  ∧ length (info_rows Demo2.RESUME_TREE) = 3%nat
  ∧ resume_info_lines Demo2.RESUME_TREE = [py "- **Age:**: 30"; py "- **City**: Riga"].
Proof.
  split; [|split; [by vm_compute|]].
  - apply (resume_info_lines_two_cell_rows Demo2.PLAIN_TREE). by vm_compute.
  - rewrite (proj1 (resume_info_lines_two_cell_rows Demo2.RESUME_TREE)).
    by vm_compute.
Defined.

Section ResumeFetchFacts.
Context (E : Collaborators).
Context (requests_get : pystr → list (pystr * pystr) → World E
                        → World E * outcome (Response E)).

Lemma fetch_resume_markdown_eq u (st : state E) :
  fetch_resume_markdown E requests_get u st =
  match requests_get u [(py "User-Agent", py "Mozilla/5.0")] (world st) with
  | (w, Raised e) => (State w (trace st), Raised e)
  | (w, Returned response) =>
      match raise_for_status E response with
      | Raised e => (State w (trace st), Raised e)
      | Returned _ =>
          (State w (trace st),
           Returned (resume_markdown
                       (BeautifulSoup E (resp_text E response) (py "html.parser"))))
      end
  end.
Proof.
  unfold fetch_resume_markdown. run_M.
  destruct (requests_get u _ (world st)) as [w [response|e]]; cbn; [|done].
  by destruct (raise_for_status E response) as [[]|e].
Qed.

Lemma markdown_assembly_shape t d (lines : list pystr) :
  ∃ body,
    (match lines with
     | [] => py "# " ++ t ++ NL ++ NL
     | _ => (py "# " ++ t ++ NL ++ NL)
            ++ (u8 "## Информация" ++ NL ++ join NL lines ++ NL ++ NL)
     end) ++ (u8 "## Описание" ++ NL ++ d ++ NL)
    = py "# " ++ body ++ NL.
Proof.
  destruct lines as [|l ls].
  - exists (t ++ NL ++ NL ++ u8 "## Описание" ++ NL ++ d).
    by rewrite <- !app_assoc.
  - exists (t ++ NL ++ NL ++ (u8 "## Информация" ++ NL ++ join NL (l :: ls) ++ NL ++ NL)
            ++ u8 "## Описание" ++ NL ++ d).
    by rewrite <- !app_assoc.
Qed.

Lemma resume_markdown_shape soup :
  ∃ body, resume_markdown soup = py "# " ++ body ++ NL.
Proof. unfold resume_markdown. apply markdown_assembly_shape. Qed.

End ResumeFetchFacts.

(** X12. [fetch_resume_markdown] catches nothing: when the request
    raises, or the status check raises, that very exception reaches the
    caller and no markdown is produced; otherwise it returns markdown
    that opens with a level-one heading and closes with a line break. *)
Theorem fetch_resume_markdown_outcome (E : Collaborators)
    (requests_get : pystr → list (pystr * pystr) → World E
                    → World E * outcome (Response E))
    (u : pystr) (st : state E) :
  (∀ w e, requests_get u [(py "User-Agent", py "Mozilla/5.0")] (world st)
          = (w, Raised e) →
     fetch_resume_markdown E requests_get u st = (State w (trace st), Raised e))
  ∧ (∀ w response e,
       requests_get u [(py "User-Agent", py "Mozilla/5.0")] (world st)
       = (w, Returned response) →
       raise_for_status E response = Raised e →
       fetch_resume_markdown E requests_get u st = (State w (trace st), Raised e))
  ∧ (∀ w response,
       requests_get u [(py "User-Agent", py "Mozilla/5.0")] (world st)
       = (w, Returned response) →
       raise_for_status E response = Returned tt →
       ∃ body,
         fetch_resume_markdown E requests_get u st
         = (State w (trace st), Returned (py "# " ++ body ++ NL))).
Proof.
  split; [|split].
  - intros w e Hget. by rewrite fetch_resume_markdown_eq, Hget.
  - intros w response e Hget Hstatus.
    by rewrite fetch_resume_markdown_eq, Hget, Hstatus.
  - intros w response Hget Hstatus.
    destruct (resume_markdown_shape
                (BeautifulSoup E (resp_text E response) (py "html.parser")))
      as [body Hbody].
    exists body. by rewrite fetch_resume_markdown_eq, Hget, Hstatus, Hbody.
Qed.

Lemma fetch_resume_markdown_outcome_witness :
  fetch_resume_markdown Demo2.env Demo2.requests_get (py "https://www.ss.lv/gone")
    (@State Demo2.env 0%nat [])
  = (@State Demo2.env 1%nat [], Raised (Exception (py "Connection refused")))
  ∧ ∃ body,
      fetch_resume_markdown Demo2.env Demo2.requests_get (py "https://www.ss.lv/resume")
        (@State Demo2.env 0%nat [])
      = (@State Demo2.env 1%nat [], Returned (py "# " ++ body ++ NL)).
Proof.
  split.
  - apply (proj1 (fetch_resume_markdown_outcome Demo2.env Demo2.requests_get
                    (py "https://www.ss.lv/gone") (@State Demo2.env 0%nat []))).
    by vm_compute.
  - apply (proj2 (proj2 (fetch_resume_markdown_outcome Demo2.env Demo2.requests_get
                    (py "https://www.ss.lv/resume") (@State Demo2.env 0%nat [])))
             1%nat (200, Demo2.RESUME_HTML)); by vm_compute.
Defined.

(** ** Key/value cells ([parse_ss_lv_gpt.py]) *)

Section CellFacts.

Lemma lstrip_chars_head chars s c :
  head (lstrip_chars chars s) = Some c → c ∉ chars.
Proof.
  induction s as [|d s IH]; simpl; [done|].
  case_bool_decide as Hd; [done|]. simpl. by intros [= <-].
Qed.

Lemma lstrip_chars_snoc chars s c :
  c ∉ chars → lstrip_chars chars (s ++ [c]) = lstrip_chars chars s ++ [c].
Proof.
  intros Hc. induction s as [|d s IH]; simpl.
  - by rewrite bool_decide_eq_false_2.
  - by case_bool_decide.
Qed.

(** What [strip(chars)] returns neither begins nor ends with one of
    [chars]. *)
Lemma strip_chars_edges chars s :
  (∀ c, head (strip_chars chars s) = Some c → c ∉ chars)
  ∧ (∀ c, last (strip_chars chars s) = Some c → c ∉ chars).
Proof.
  unfold strip_chars. split; intros c.
  - rewrite head_reverse.
    pose proof (lstrip_chars_head chars s) as Hhead.
    destruct (lstrip_chars chars s) as [|d t]; [done|].
    rewrite reverse_cons, lstrip_chars_snoc by by apply Hhead.
    rewrite last_snoc. intros [= <-]. by apply Hhead.
  - rewrite last_reverse. apply lstrip_chars_head.
Qed.

Lemma remove_char_absent c s : c ∉ remove_char c s.
Proof.
  unfold remove_char. intros Hin.
  apply list_elem_of_In, filter_In in Hin as [_ Hne].
  apply negb_true_iff, N.eqb_neq in Hne. done.
Qed.

Lemma dict_get_set_eq {V} k (v : V) d : dict_get k (dict_set k v d) = Some v.
Proof.
  induction d as [|[k' v'] d IH]; cbn [dict_set dict_get].
  - by destruct (decide (k = k)).
  - destruct (decide (k = k')) as [->|Hne]; cbn [dict_get].
    + by destruct (decide (k' = k')).
    + by destruct (decide (k = k')).
Qed.

Lemma dict_get_set_ne {V} k k' (v : V) d :
  k ≠ k' → dict_get k' (dict_set k v d) = dict_get k' d.
Proof.
  intros Hne. induction d as [|[k0 v0] d IH]; cbn [dict_set dict_get].
  - by destruct (decide (k' = k)).
  - destruct (decide (k = k0)) as [->|Hne0]; cbn [dict_get].
    + by destruct (decide (k' = k0)).
    + by rewrite IH.
Qed.

Lemma dict_set_keys {V} k (v : V) d :
  map fst (dict_set k v d)
  = if decide (k ∈ map fst d) then map fst d else map fst d ++ [k].
Proof.
  induction d as [|[k' v'] d IH]; cbn [dict_set map fst].
  - destruct (decide (k ∈ [])) as [Hin|_]; [by apply elem_of_nil in Hin|done].
  - destruct (decide (k = k')) as [->|Hne]; cbn [map fst].
    + destruct (decide (k' ∈ k' :: map fst d)) as [_|Hnin]; [done|].
      destruct Hnin. apply list_elem_of_here.
    + rewrite IH. destruct (decide (k ∈ map fst d)) as [Hin|Hnin].
      * destruct (decide (k ∈ k' :: map fst d)) as [_|Hnin]; [done|].
        destruct Hnin. by apply list_elem_of_further.
      * destruct (decide (k ∈ k' :: map fst d)) as [Hin|_]; [|done].
        apply elem_of_cons in Hin as [?|?]; done.
Qed.

Lemma dict_set_NoDup {V} k (v : V) d :
  NoDup (map fst d) → NoDup (map fst (dict_set k v d)).
Proof.
  intros Hd. rewrite dict_set_keys.
  destruct (decide (k ∈ map fst d)); [done|].
  apply NoDup_app. split; [done|]. split; [|apply NoDup_singleton].
  intros x Hx ->%list_elem_of_singleton. done.
Qed.

Lemma dict_set_Forall {V} (P : pystr * V → Prop) k v d :
  P (k, v) → Forall P d → Forall P (dict_set k v d).
Proof.
  intros Hkv. induction 1 as [|[k' v'] d Hx Hd IH]; simpl.
  - by repeat constructor.
  - destruct (decide (k = k')); by constructor.
Qed.

Lemma scan_cell_raises resume_data td :
  bold_followed_by_tag td → scan_cell resume_data td = Raised NONE_NOT_CALLABLE.
Proof.
  intros (b & n & a & cs & Hfind & Hstrip). unfold scan_cell.
  rewrite Hfind. cbn -[tag_find_all]. by rewrite Hstrip.
Qed.

Lemma scan_cell_exn resume_data td e :
  scan_cell resume_data td = Raised e → e = NONE_NOT_CALLABLE.
Proof.
  unfold scan_cell.
  destruct (tag_find_with_sibling (py "b") td) as [[b [sibling|]]|]; try done.
  destruct (node_truthy sibling); [|done].
  destruct sibling as [n a cs|c s].
  - destruct (head _); [|by intros [= <-]].
    by destruct (tag_find_all KEY_VALUE_TRIM _).
  - by destruct (strip_chars KEY_VALUE_TRIM s).
Qed.

Lemma scan_cell_returns resume_data td :
  bold_followed_by_no_tag td → ∃ d, scan_cell resume_data td = Returned d.
Proof.
  intros Hno. unfold scan_cell.
  destruct (tag_find_with_sibling (py "b") td) as [[b [sibling|]]|] eqn:Hfind;
    try by eexists.
  destruct (Hno b sibling Hfind) as (c & s & ->).
  destruct (node_truthy _); [|by eexists].
  destruct (strip_chars KEY_VALUE_TRIM s); by eexists.
Qed.

Lemma scan_cells_raises tds : ∀ resume_data,
  Exists bold_followed_by_tag tds →
  scan_cells resume_data tds = Raised NONE_NOT_CALLABLE.
Proof.
  induction tds as [|td tds IH]; intros d Hex; [by inversion Hex|]. simpl.
  destruct (scan_cell d td) as [d'|e] eqn:Hcell.
  - apply IH. inversion Hex as [? ? Hbad|]; subst; [|done].
    by rewrite (scan_cell_raises d td Hbad) in Hcell.
  - by apply scan_cell_exn in Hcell as ->.
Qed.

Lemma scan_cells_returns tds : ∀ resume_data,
  Forall bold_followed_by_no_tag tds →
  ∃ d, scan_cells resume_data tds = Returned d.
Proof.
  induction tds as [|td tds IH]; intros d Hall; simpl; [by eexists|].
  inversion Hall as [|? ? Htd Htds]; subst.
  destruct (scan_cell_returns d td Htd) as [d' ->]. by apply IH.
Qed.

Lemma scan_cell_entries resume_data td d :
  scan_cell resume_data td = Returned d →
  NoDup (map fst resume_data) → Forall cell_entry_ok resume_data →
  NoDup (map fst d) ∧ Forall cell_entry_ok d.
Proof.
  unfold scan_cell.
  destruct (tag_find_with_sibling (py "b") td) as [[b [sibling|]]|];
    try (by intros [= <-]).
  destruct (node_truthy sibling); [|by intros [= <-]].
  destruct sibling as [n a cs|c s].
  - destruct (head _) as [callee|]; [|done].
    destruct (tag_find_all KEY_VALUE_TRIM callee) as [|t ts] eqn:Htags;
      intros [= <-] Hnd Hok; [done|].
    split; [by apply dict_set_NoDup|].
    apply dict_set_Forall; [|done].
    split; [apply remove_char_absent|done].
  - destruct (strip_chars KEY_VALUE_TRIM s) as [|v0 v] eqn:Hv;
      intros [= <-] Hnd Hok; [done|].
    split; [by apply dict_set_NoDup|].
    apply dict_set_Forall; [|done].
    split; [apply remove_char_absent|].
    cbv beta iota delta [snd]. split; [done|].
    rewrite <- Hv. apply strip_chars_edges.
Qed.

Lemma scan_cells_entries tds : ∀ resume_data d,
  scan_cells resume_data tds = Returned d →
  NoDup (map fst resume_data) → Forall cell_entry_ok resume_data →
  NoDup (map fst d) ∧ Forall cell_entry_ok d.
Proof.
  induction tds as [|td tds IH]; intros d0 d; simpl; [by intros [= <-]|].
  destruct (scan_cell d0 td) as [d1|e] eqn:Hcell; [|done].
  intros Hrest Hnd Hok.
  destruct (scan_cell_entries d0 td d1 Hcell Hnd Hok) as [Hnd1 Hok1].
  by eapply IH.
Qed.

End CellFacts.

(** X13. [extract_resume_data] raises when, in some cell, the first
    [<b>] is directly followed by a tag rather than by text (and that
    tag has no descendant named [strip]): it calls [.strip] on the tag,
    which is [None], whatever the rest of the page holds. *)
Theorem extract_resume_data_raises_on_tag_sibling (E : Collaborators)
    (tag_repr : PageElement → pystr) (html : pystr) :
  Exists bold_followed_by_tag
    (find_all (py "td") (BeautifulSoup E html (py "html.parser"))) →
  extract_resume_data E tag_repr html = Raised NONE_NOT_CALLABLE.
Proof.
  intros Hex. unfold extract_resume_data.
  by rewrite (scan_cells_raises _ [] Hex).
Qed.

Lemma extract_resume_data_raises_on_tag_sibling_witness :
  extract_resume_data Demo2.env Demo2.tag_repr Demo2.SPAN_HTML
  = Raised NONE_NOT_CALLABLE.
Proof.
  apply extract_resume_data_raises_on_tag_sibling.
  apply Exists_cons_hd.
  eexists _, _, _, _. split; by vm_compute.
Defined.

Section ResumeDataFacts.
Context (E : Collaborators).
Context (tag_repr : PageElement → pystr).

Lemma entries_fold (f : pystr * resume_value → pystr) data : ∀ md,
  fold_left (λ md kv, md ++ f kv) data md = md ++ concat (map f data).
Proof.
  induction data as [|kv data IH]; intros md; simpl; [by rewrite app_nil_r|].
  by rewrite IH, <- app_assoc.
Qed.

Lemma resume_md_shape title data description :
  ∃ rest, resume_md tag_repr title data description = 35%N :: rest.
Proof.
  unfold resume_md.
  assert (∀ tail, ∃ rest, strip (py "# " ++ tail) = 35%N :: rest) as Hstrip.
  { intros tail. change (py "# ") with [35; 32]%N. cbn [app].
    rewrite strip_cons by done. by eexists. }
  destruct data as [|kv data].
  - rewrite <- !app_assoc. apply Hstrip.
  - rewrite entries_fold, <- !app_assoc. apply Hstrip.
Qed.

Lemma scan_blocks_last blocks : ∀ d,
  d = [] ∨ (∃ v, d = [(u8 "Информация", v)]) →
  fold_left scan_block blocks d
  = match last (List.filter (λ t, negb (bool_decide (t = [])))
                  (map (get_text [SPACE] true) blocks)) with
    | Some t => [(u8 "Информация", VText t)]
    | None => d
    end.
Proof.
  induction blocks as [|block blocks IH]; intros d Hd; [done|].
  cbn [fold_left map List.filter]. unfold scan_block at 2.
  destruct (get_text [SPACE] true block) as [|c t] eqn:Htext.
  - rewrite bool_decide_eq_true_2 by done. cbn [negb]. by apply IH.
  - rewrite bool_decide_eq_false_2 by done. cbn [negb].
    rewrite IH.
    + rewrite last_cons. destruct (last _); [done|].
      destruct Hd as [->|[v ->]]; cbn [dict_set]; [done|].
      by destruct (decide _).
    + right. destruct Hd as [->|[v ->]]; cbn [dict_set]; [by eexists|].
      destruct (decide _); [by eexists|done].
Qed.

End ResumeDataFacts.

(** X14. [extract_resume_data] returns whenever no cell has its first
    [<b>] directly followed by a tag; and whatever it returns is
    stripped markdown that opens with the [#] of the title heading. *)
Theorem extract_resume_data_returns (E : Collaborators)
    (tag_repr : PageElement → pystr) (html : pystr) :
  (Forall bold_followed_by_no_tag
     (find_all (py "td") (BeautifulSoup E html (py "html.parser"))) →
   ∃ md, extract_resume_data E tag_repr html = Returned md)
  ∧ (∀ md, extract_resume_data E tag_repr html = Returned md →
       head md = Some 35%N ∧ no_edge_whitespace md).
Proof.
  split.
  - intros Hall. unfold extract_resume_data.
    destruct (scan_cells_returns _ [] Hall) as [d ->]. by eexists.
  - unfold extract_resume_data.
    destruct (scan_cells [] _) as [d|e]; [|done].
    intros md [= <-]. split.
    + match goal with
      | |- head (resume_md _ ?t ?data ?desc) = _ =>
          by destruct (resume_md_shape tag_repr t data desc) as [rest ->]
      end.
    + unfold resume_md. apply strip_no_edge_whitespace.
Qed.

Lemma extract_resume_data_returns_witness :
  ∃ md, extract_resume_data Demo2.env Demo2.tag_repr Demo2.CELLS_HTML = Returned md
        ∧ head md = Some 35%N ∧ no_edge_whitespace md.
Proof.
  destruct (extract_resume_data_returns Demo2.env Demo2.tag_repr Demo2.CELLS_HTML)
    as [Hreturns Hshape].
  destruct Hreturns as [md Hmd].
  - apply Forall_forall. intros td Htd b sibling Hfind.
    revert Htd Hfind. vm_compute (find_all _ _).
    rewrite !elem_of_cons, elem_of_nil.
    intros [->|[->|[->|[]]]]; vm_compute; intros [= <- <-]; by eexists _, _.
  - exists md. split; [done|]. by apply Hshape.
Defined.

(** X15. After the cell loop the collected data has no duplicate key,
    no key contains a colon, and every text value is non-empty and
    neither begins nor ends with a space, colon, line feed, carriage
    return or tab. *)
Theorem resume_cells_well_formed (tds : list PageElement)
    (d : list (pystr * resume_value)) :
  scan_cells [] tds = Returned d →
  NoDup (map fst d) ∧ Forall cell_entry_ok d.
Proof.
  intros Hrun. eapply scan_cells_entries; [exact Hrun|constructor|constructor].
Qed.

Lemma resume_cells_well_formed_witness :
  ∃ d, scan_cells [] (find_all (py "td") Demo2.CELLS_TREE) = Returned d
       ∧ map fst d = [py "Age"; py "City"]
       ∧ NoDup (map fst d) ∧ Forall cell_entry_ok d.
Proof.
  eexists. split; [vm_compute; reflexivity|]. split; [by vm_compute|].
  apply (resume_cells_well_formed (find_all (py "td") Demo2.CELLS_TREE)).
  vm_compute. reflexivity.
Defined.

(** X16. A cell whose first [<b>] is followed by text that is not
    empty once trimmed stores that text under the key: reading the key
    back gives the new value, every other key keeps its value, and the
    key keeps its place if it was present and is appended otherwise; a
    later cell with the same key thus replaces the earlier value. *)
Theorem scan_cell_stores_value (resume_data : list (pystr * resume_value))
    (td b : PageElement) (c : string_class) (s : pystr) :
  tag_find_with_sibling (py "b") td = Some (b, Some (Str c s)) →
  strip_chars KEY_VALUE_TRIM s ≠ [] →
  let key := remove_char COLON (get_text [] true b) in
  let value := strip_chars KEY_VALUE_TRIM s in
  ∃ d, scan_cell resume_data td = Returned d
       ∧ dict_get key d = Some (VText value)
       ∧ (∀ k, k ≠ key → dict_get k d = dict_get k resume_data)
       ∧ map fst d = (if decide (key ∈ map fst resume_data)
                      then map fst resume_data
                      else map fst resume_data ++ [key]).
Proof.
  intros Hfind Hvalue key value.
  exists (dict_set key (VText value) resume_data).
  split; [|split; [apply dict_get_set_eq|split]].
  - unfold scan_cell. rewrite Hfind. cbn [node_truthy].
    assert (s ≠ []) as Hs by (intros ->; by apply Hvalue).
    rewrite bool_decide_eq_false_2 by done. cbn [negb].
    subst key value. by destruct (strip_chars KEY_VALUE_TRIM s).
  - intros k Hk. by apply dict_get_set_ne.
  - apply dict_set_keys.
Qed.

Lemma scan_cell_stores_value_witness :
  ∃ d, scan_cell [(py "Age", VText (py "30")); (py "City", VText (py "Riga"))]
         (Demo2.tag (py "td") [Demo2.tag (py "b") [Demo2.text (py "Age:")];
                               Demo2.text (py " 31")])
       = Returned d
       ∧ dict_get (py "Age") d = Some (VText (py "31"))
       ∧ map fst d = [py "Age"; py "City"].
Proof.
  destruct (scan_cell_stores_value
              [(py "Age", VText (py "30")); (py "City", VText (py "Riga"))]
              (Demo2.tag (py "td") [Demo2.tag (py "b") [Demo2.text (py "Age:")];
                                    Demo2.text (py " 31")])
              (Demo2.tag (py "b") [Demo2.text (py "Age:")])
              NavigableString (py " 31"))
    as (d & Hrun & Hget & _ & Hkeys); [by vm_compute|by vm_compute|].
  exists d. split; [exact Hrun|]. split; [exact Hget|exact Hkeys].
Defined.

(** X17. When the cell loop finds no pair, the data shown is the text
    of the last [msg_body] block whose text is not empty, under the key
    ["Информация"] (earlier blocks are overwritten); when there is no
    such block the data is empty and the placeholder line is shown
    instead. *)
Theorem resume_fallback_last_block (E : Collaborators)
    (tag_repr : PageElement → pystr) (html : pystr) :
  let soup := BeautifulSoup E html (py "html.parser") in
  scan_cells [] (find_all (py "td") soup) = Returned [] →
  ∃ title description,
    extract_resume_data E tag_repr html
    = Returned (resume_md tag_repr title
                  (match last (block_texts soup) with
                   | Some t => [(u8 "Информация", VText t)]
                   | None => []
                   end)
                  description)
    ∧ (last (block_texts soup) = None →
       extract_resume_data E tag_repr html
       = Returned (strip ((py "# " ++ title ++ NL ++ NL)
                          ++ (u8 "_Данные о резюме не найдены._" ++ NL ++ NL)
                          ++ (u8 "## Описание" ++ NL ++ NL)
                          ++ (match description with
                              | [] => u8 "_Описание не найдено_"
                              | _ => description
                              end)))).
Proof.
  intros soup Hcells. subst soup. unfold extract_resume_data. rewrite Hcells.
  rewrite scan_blocks_last by by left.
  fold (block_texts (BeautifulSoup E html (py "html.parser"))).
  eexists _, _. split; [reflexivity|].
  intros Hnone.
  match goal with
  | |- context [match ?x with Some _ => _ | None => _ end] =>
      replace x with (@None pystr) by (symmetry; exact Hnone)
  end.
  unfold resume_md. by rewrite <- !app_assoc.
Qed.

Lemma resume_fallback_last_block_witness :
  block_texts Demo2.BLOCKS_TREE = [py "first"; py "second  block"]
  ∧ (∃ title description,
       extract_resume_data Demo2.env Demo2.tag_repr Demo2.BLOCKS_HTML
       = Returned (resume_md Demo2.tag_repr title
                     [(u8 "Информация", VText (py "second  block"))] description))
  ∧ extract_resume_data Demo2.env Demo2.tag_repr Demo2.PLAIN_HTML
    = Returned (strip ((py "# " ++ u8 "Без названия" ++ NL ++ NL)
                       ++ (u8 "_Данные о резюме не найдены._" ++ NL ++ NL)
                       ++ (u8 "## Описание" ++ NL ++ NL)
                       ++ u8 "_Описание не найдено_")).
Proof.
  split; [by vm_compute|]. split.
  - destruct (resume_fallback_last_block Demo2.env Demo2.tag_repr Demo2.BLOCKS_HTML)
      as (title & description & Hrun & _); [by vm_compute|].
    exists title, description. rewrite Hrun. do 2 f_equal.
  - destruct (resume_fallback_last_block Demo2.env Demo2.tag_repr Demo2.PLAIN_HTML)
      as (title & description & Hrun & Hnone); [by vm_compute|].
    rewrite Hrun. by vm_compute.
Defined.
